(** * testmystream: the results store, the attempt recorder and the dashboard
      aggregation of [final1.py], as a shallow embedding.

    The script is a Streamlit application.  What it computes itself is small:
    it compares a recognised word with an animal name, builds one row per
    attempt, rewrites [results.csv] with that row appended, and on the
    dashboard page filters the rows by category, derives a period from each
    date and sums three columns per period.

    Modelling choices.
    - Python [str] is [string]; [str.lower] is modelled on the ASCII letters.
    - A naive [datetime] is a number of microseconds of local wall-clock time
      since 1970-01-01T00:00:00, with the UTC offset in force at that moment.
    - A pandas [Timestamp] at midnight is the number of days since
      1970-01-01 ([Z]); the calendar arithmetic of [datetime] and pandas is
      written out in [Calendar].
    - [results.csv] is either absent, or text that [pd.read_csv] rejects, or
      text that it parses to a table (a header and rows).  [to_csv] followed
      by [read_csv] is taken to give back the table that was written.
    - Exceptions are values of [exn]; every function that touches the file or
      the screen is a state-and-error computation over [World]. *)

From Stdlib Require Import ZArith List String Ascii Bool Lia Sorted.
Import ListNotations.
Open Scope Z_scope.

(* ------------------------------------------------------------------ *)
(** ** Strings *)

Module Str.

(** [str.lower], on the ASCII range. *)
Definition lower_ascii (c : ascii) : ascii :=
  let n := nat_of_ascii c in
  if (Nat.leb 65 n && Nat.leb n 90)%bool then ascii_of_nat (n + 32) else c.

Fixpoint lower (s : string) : string :=
  match s with
  | EmptyString => EmptyString
  | String c s' => String (lower_ascii c) (lower s')
  end.

(** Membership of a string in a list, as [x in xs]. *)
Definition mem (x : string) (xs : list string) : bool :=
  existsb (String.eqb x) xs.

(** Python truthiness of a [str]. *)
Definition truthy (s : string) : bool :=
  match s with EmptyString => false | _ => true end.

End Str.

(* ------------------------------------------------------------------ *)
(** ** Calendar arithmetic of [datetime] and pandas *)

Module Calendar.

(** [datetime.date]: a proleptic Gregorian year, month and day. *)
Record date : Type := mkDate { year : Z; month : Z; day : Z }.

(** Days from 1970-01-01 to the given date: the value of
    [pd.to_datetime] of an ISO date, in days. *)
Definition days_from_civil (d : date) : Z :=
  let y := if month d <=? 2 then year d - 1 else year d in
  let era := y / 400 in
  let yoe := y - era * 400 in
  let mp := (month d + 9) mod 12 in
  let doy := (153 * mp + 2) / 5 + day d - 1 in
  let doe := yoe * 365 + yoe / 4 - yoe / 100 + doy in
  era * 146097 + doe - 719468.

(** The date that lies the given number of days after 1970-01-01. *)
Definition civil_from_days (z : Z) : date :=
  let z' := z + 719468 in
  let era := z' / 146097 in
  let doe := z' - era * 146097 in
  let yoe := (doe - doe / 1460 + doe / 36524 - doe / 146096) / 365 in
  let doy := doe - (365 * yoe + yoe / 4 - yoe / 100) in
  let mp := (5 * doy + 2) / 153 in
  let d := doy - (153 * mp + 2) / 5 + 1 in
  let m := if mp <? 10 then mp + 3 else mp - 9 in
  let y := yoe + era * 400 in
  mkDate (if m <=? 2 then y + 1 else y) m d.

(** [date.weekday()] of a day number: Monday is 0, Sunday is 6.
    Day 0, 1970-01-01, is a Thursday. *)
Definition weekday (n : Z) : Z := (n + 3) mod 7.

Definition is_leap (y : Z) : bool :=
  ((y mod 4 =? 0) && negb (y mod 100 =? 0)) || (y mod 400 =? 0).

Definition days_in_month (y m : Z) : Z :=
  if m =? 2 then (if is_leap y then 29 else 28)
  else if (m =? 4) || (m =? 6) || (m =? 9) || (m =? 11) then 30
  else 31.

(** The dates a [datetime.date] can hold. *)
Definition valid (d : date) : Prop :=
  1 <= month d <= 12 /\ 1 <= day d <= days_in_month (year d) (month d).

(** [Period.start_time] of [to_period('W')].  The alias W is W-SUN: weeks
    end on Sunday, so a period starts on the Monday on or before the day. *)
Definition week_start (n : Z) : Z := n - weekday n.

(** [Period.start_time] of [to_period('M')]: day 1 of the month. *)
Definition month_start (d : date) : Z :=
  days_from_civil (mkDate (year d) (month d) 1).

(** The year of the era that starts on 1 March of year [yoe] ends on a
    29 February. *)
Definition leap_yoe (yoe : Z) : Prop :=
  (yoe + 1) mod 4 = 0 /\ ((yoe + 1) mod 100 <> 0 \/ yoe + 1 = 400).

Definition us_per_day : Z := 86400000000.

(** A naive local [datetime] as returned by [datetime.now()]. *)
Record datetime : Type := mkDatetime {
  wall_us : Z;      (* local wall clock, microseconds since 1970-01-01T00:00 *)
  utc_offset_us : Z (* offset of local time from UTC at that moment *)
}.

(** [datetime.timestamp()], in microseconds since the epoch. *)
Definition timestamp_of (t : datetime) : Z := wall_us t - utc_offset_us t.

(** [datetime.date()]. *)
Definition date_of (t : datetime) : date :=
  civil_from_days (wall_us t / us_per_day).

End Calendar.

(* ------------------------------------------------------------------ *)
(** ** Rows and tables *)

(** One row of [results.csv]: the dictionary [record] of [animal_page]. *)
Record AttemptRecord : Type := mkAttempt {
  child_id : Z;
  animal_name : string;
  category : string;
  attempt : Z;
  correct : Z;
  incorrect : Z;
  timestamp : Z;
  date : Calendar.date
}.

(** The keys of the dictionary [record], in insertion order. *)
Definition record_keys : list string :=
  ["child_id"; "animal_name"; "category"; "attempt"; "correct"; "incorrect";
   "timestamp"; "date"]%string.

(** A [DataFrame] holding attempt rows: its column labels and its rows. *)
Record DataFrame : Type := mkDF {
  columns : list string;
  rows : list AttemptRecord
}.

(** [df.empty]. *)
Definition df_empty (df : DataFrame) : bool :=
  match rows df with [] => true | _ => false end.

(** [pd.concat([df, pd.DataFrame([record])], ignore_index=True)]: the
    columns of [df] followed by the keys it lacks, the rows of [df] followed
    by the new row. *)
Definition concat_record (df : DataFrame) (record : AttemptRecord) : DataFrame :=
  mkDF (columns df ++ filter (fun k => negb (Str.mem k (columns df))) record_keys)
       (rows df ++ [record]).

(* ------------------------------------------------------------------ *)
(** ** The world: the results file, the session and the screen *)

(** What is at [RESULTS_FILE_PATH] when it exists. *)
Inductive file : Type :=
| Unparseable            (* text on which [pd.read_csv] raises *)
| Csv (df : DataFrame).  (* text that [pd.read_csv] parses to [df] *)

(** Exceptions that reach the caller. *)
Inductive exn : Type :=
| ParserError         (* pandas.errors.ParserError / EmptyDataError *)
| FileNotFoundError.

(** Calls of [st.info], [st.error], [st.success], [st.warning]. *)
Inductive message : Type :=
| StInfo (s : string)
| StError (s : string)
| StSuccess (s : string)
| StWarning (s : string).

(** An entry of [st.session_state.test_attempts]. *)
Record test_attempt : Type := mkTest {
  ta_animal : string;
  ta_recognized_text : string;
  ta_is_correct : bool
}.

Record World : Type := mkWorld {
  results_file : option file;          (* None: the path does not exist *)
  session_child_id : Z;                (* st.session_state.child_id *)
  test_attempts : list test_attempt;   (* st.session_state.test_attempts *)
  screen : list message                (* messages shown, oldest first *)
}.

Definition set_file (f : option file) (w : World) : World :=
  mkWorld f (session_child_id w) (test_attempts w) (screen w).

Definition st_show (m : message) (w : World) : World :=
  mkWorld (results_file w) (session_child_id w) (test_attempts w)
          (screen w ++ [m]).

Definition push_attempt (a : test_attempt) (w : World) : World :=
  mkWorld (results_file w) (session_child_id w) (test_attempts w ++ [a])
          (screen w).

(** The outcome of a call: a value, or an exception that propagates. *)
Inductive outcome (A : Type) : Type :=
| Ok (a : A)
| Raise (e : exn).
Arguments Ok {A} a.
Arguments Raise {A} e.

Definition M (A : Type) : Type := World -> outcome A * World.

Definition ret {A} (a : A) : M A := fun w => (Ok a, w).

Definition bind {A B} (m : M A) (k : A -> M B) : M B :=
  fun w => match m w with
           | (Ok a, w') => k a w'
           | (Raise e, w') => (Raise e, w')
           end.

Definition modify (f : World -> World) : M unit := fun w => (Ok tt, f w).

Notation "x <- m ;; k" := (bind m (fun x => k))
  (at level 61, m at next level, right associativity).
Notation "m ;; k" := (bind m (fun _ => k))
  (at level 61, right associativity).

(* ------------------------------------------------------------------ *)
(** ** The results store *)

Definition header : list string := record_keys.

(** [os.path.exists(RESULTS_FILE_PATH)]. *)
Definition path_exists (w : World) : bool :=
  match results_file w with Some _ => true | None => false end.

(** [df.to_csv(RESULTS_FILE_PATH, index=False)]: the file is replaced. *)
Definition to_csv (df : DataFrame) : M unit :=
  modify (set_file (Some (Csv df))).

(** [pd.read_csv(RESULTS_FILE_PATH)]. *)
Definition read_csv : M DataFrame :=
  fun w => match results_file w with
           | None => (Raise FileNotFoundError, w)
           | Some Unparseable => (Raise ParserError, w)
           | Some (Csv df) => (Ok df, w)
           end.

Definition ensure_results_file : M unit :=
  fun w => if negb (path_exists w) then to_csv (mkDF header []) w
           else (Ok tt, w).

Definition save_to_csv (record : AttemptRecord) : M unit :=
  ensure_results_file ;;
  df <- read_csv ;;
  to_csv (concat_record df record).

Definition load_results : M DataFrame :=
  ensure_results_file ;;
  read_csv.

(* ------------------------------------------------------------------ *)
(** ** The animal pages *)

Module Dataset.

(** A row of [animal_dataset.csv]. *)
Record AnimalRecord : Type := mkAnimal {
  animal_name : string;
  animal_category : string;
  url : string
}.

End Dataset.

(** What [recognizer.recognize_google] does with the captured audio. *)
Inductive recognition : Type :=
| Recognized (text : string)
| UnknownValueError     (* the audio could not be understood *)
| RequestError.         (* the recognition service could not be reached *)

(** What [gTTS] does with the text. *)
Inductive synthesis : Type :=
| Audio (b64 : string)
| SynthesisError (e : string).

(** The widget values and collaborator answers of one run of an animal page. *)
Record PageInputs : Type := mkInputs {
  selected_index : nat;       (* position chosen in the select box *)
  image_loads : bool;         (* [st.image] does not raise *)
  play_sound : bool;          (* the button Play Sound is pressed *)
  tts : synthesis;
  try_saying : bool;          (* the button Try Saying Here is pressed *)
  heard : recognition;
  now1 : Calendar.datetime;   (* first call of [datetime.now()] *)
  now2 : Calendar.datetime    (* second call of [datetime.now()] *)
}.

Definition could_not_understand : string :=
  "Could not understand or request failed. Please try again.".

Definition recognize_speech (h : recognition) : M (option string) :=
  modify (st_show (StInfo "Listening... Please say the animal's name.")) ;;
  match h with
  | Recognized text => ret (Some (Str.lower text))
  | UnknownValueError | RequestError =>
      modify (st_show (StError could_not_understand)) ;;
      ret None
  end.

Definition generate_audio (t : synthesis) : M (option string) :=
  match t with
  | Audio b64 => ret (Some b64)
  | SynthesisError e =>
      modify (st_show (StError ("Error generating audio: " ++ e))) ;;
      ret None
  end.

(** The dictionary [record] built in [animal_page]. *)
Definition make_record (cid : Z) (selected_animal_name cat : string)
    (is_correct : bool) (t1 t2 : Calendar.datetime) : AttemptRecord :=
  mkAttempt cid selected_animal_name cat 1
            (Z.b2z is_correct) (Z.b2z (negb is_correct))
            (Calendar.timestamp_of t1) (Calendar.date_of t2).

(** The body of [if recognized_text:] in [animal_page]: compare, note the
    attempt in the session, tell the user, build the record and save it. *)
Definition record_attempt (selected_animal_name cat recognized_text : string)
    (t1 t2 : Calendar.datetime) : M unit :=
  let is_correct := String.eqb recognized_text (Str.lower selected_animal_name) in
  modify (push_attempt (mkTest selected_animal_name recognized_text is_correct)) ;;
  modify (st_show
    (if is_correct
     then StSuccess ("Correct! You said '" ++ selected_animal_name ++ "'.")
     else StError ("Incorrect. You said '" ++ recognized_text ++ "'. Try again."))) ;;
  fun w => save_to_csv
    (make_record (session_child_id w) selected_animal_name cat is_correct t1 t2) w.

Section Pages.

(** [animal_data], read once from [animal_dataset.csv] when the script starts. *)
Variable animal_data : list Dataset.AnimalRecord.

Definition get_animal_details (cat : string) : list Dataset.AnimalRecord :=
  filter (fun a => String.eqb (Str.lower (Dataset.animal_category a))
                              (Str.lower cat))
         animal_data.

Definition animal_page (cat : string) (inp : PageInputs) : M unit :=
  match get_animal_details cat with
  | [] => modify (st_show
            (StError ("No " ++ Str.lower cat ++ " found in the dataset.")))
  | (first :: _) as animals =>
      let animal_names := map Dataset.animal_name animals in
      let selected_animal_name :=
        nth (selected_index inp) animal_names (Dataset.animal_name first) in
      (if image_loads inp then ret tt
       else modify (st_show
              (StError ("Failed to load image for " ++ selected_animal_name ++ ".")))) ;;
      (if play_sound inp
       then _ <- generate_audio (tts inp) ;; ret tt
       else ret tt) ;;
      if try_saying inp then
        recognized_text <- recognize_speech (heard inp) ;;
        match recognized_text with
        | Some text =>
            if Str.truthy text
            then record_attempt selected_animal_name cat text (now1 inp) (now2 inp)
            else ret tt
        | None => ret tt
        end
      else ret tt
  end.

End Pages.

(* ------------------------------------------------------------------ *)
(** ** The dashboard *)

(** The three values of the radio button View Progress By. *)
Inductive time_filter : Type := Daily | Weekly | Monthly.

(** A row of [trend_data]. *)
Record bucket : Type := mkBucket {
  period : Z;          (* column time_period, in days since 1970-01-01 *)
  attempt_sum : Z;
  correct_sum : Z;
  incorrect_sum : Z
}.

(** [Series.unique()]: the distinct values in order of first appearance. *)
Fixpoint unique (xs : list string) : list string :=
  match xs with
  | [] => []
  | x :: xs' => x :: filter (fun y => negb (String.eqb y x)) (unique xs')
  end.

(** [["All"] + list(categories)]. *)
Definition category_options (records : list AttemptRecord) : list string :=
  "All"%string :: unique (map category records).

(** Lines 138-139: the category filter. *)
Definition filter_category (selected_category : string)
    (records : list AttemptRecord) : list AttemptRecord :=
  if negb (String.eqb selected_category "All")
  then filter (fun r => String.eqb (category r) selected_category) records
  else records.

(** Lines 141-146: the column time_period. *)
Definition period_of (tf : time_filter) (n : Z) : Z :=
  match tf with
  | Daily => n
  | Weekly => Calendar.week_start n
  | Monthly =>
      Calendar.month_start (Calendar.civil_from_days n)
  end.

Definition time_period (tf : time_filter) (r : AttemptRecord) : Z :=
  period_of tf (Calendar.days_from_civil (date r)).

(** One step of [groupby(...).sum()]: add a row to the group of its key,
    groups kept in ascending order of key. *)
Fixpoint add_row (k : Z) (r : AttemptRecord) (bs : list bucket) : list bucket :=
  match bs with
  | [] => [mkBucket k (attempt r) (correct r) (incorrect r)]
  | b :: bs' =>
      if k <? period b then
        mkBucket k (attempt r) (correct r) (incorrect r) :: b :: bs'
      else if k =? period b then
        mkBucket k (attempt_sum b + attempt r) (correct_sum b + correct r)
                 (incorrect_sum b + incorrect r) :: bs'
      else b :: add_row k r bs'
  end.

(** [df.groupby(key)[['attempt','correct','incorrect']].sum().reset_index()]. *)
Definition groupby_sum (key : AttemptRecord -> Z) (records : list AttemptRecord)
  : list bucket :=
  fold_left (fun acc r => add_row (key r) r acc) records [].

(** [df[col].sum()]. *)
Definition column_sum (col : AttemptRecord -> Z) (records : list AttemptRecord) : Z :=
  fold_right (fun r acc => col r + acc) 0 records.

Definition bucket_sum (col : bucket -> Z) (bs : list bucket) : Z :=
  fold_right (fun b acc => col b + acc) 0 bs.

(** The column time_period of [trend_data]. *)
Definition periods (bs : list bucket) : list Z := map period bs.

(** The rows of a group: those whose key is [k]. *)
Definition members (key : AttemptRecord -> Z) (k : Z)
    (records : list AttemptRecord) : list AttemptRecord :=
  filter (fun r => key r =? k) records.

(** A bucket carries the sums over the rows of its group. *)
Definition group_ok (key : AttemptRecord -> Z) (records : list AttemptRecord)
    (b : bucket) : Prop :=
  attempt_sum b = column_sum attempt (members key (period b) records)
  /\ correct_sum b = column_sum correct (members key (period b) records)
  /\ incorrect_sum b = column_sum incorrect (members key (period b) records).

(** What the dashboard shows: the chart data and the three metrics. *)
Record Dashboard : Type := mkDashboard {
  trend_data : list bucket;
  total_attempts : Z;
  total_correct : Z;
  total_incorrect : Z
}.

(** Lines 138-152 of [dashboard_page], on the rows that were loaded. *)
Definition aggregate (records : list AttemptRecord) (tf : time_filter)
    (selected_category : string) : Dashboard :=
  let df := filter_category selected_category records in
  mkDashboard (groupby_sum (time_period tf) df)
              (column_sum attempt df) (column_sum correct df)
              (column_sum incorrect df).

(** [dashboard_page]; [choice] is the position chosen in the category
    select box, whose options are [category_options]. *)
Definition dashboard_page (tf : time_filter) (choice : nat) : M (option Dashboard) :=
  df <- load_results ;;
  if df_empty df then
    modify (st_show (StWarning "No data available.")) ;;
    ret None
  else
    let selected_category := nth choice (category_options (rows df)) "All"%string in
    ret (Some (aggregate (rows df) tf selected_category)).

(** The table [pages] at the end of the script.  [home_page] only sets the
    page to show next; it touches neither the file nor the attempts. *)
Inductive page : Type :=
| HomePage
| AnimalPage (cat : string)
| DashboardPage.

Definition pages : list page :=
  [HomePage; AnimalPage "farm animal"; AnimalPage "sea creature";
   AnimalPage "bird"; AnimalPage "wild animal"; AnimalPage "jungle animal";
   DashboardPage]%string.

(** The rows a world holds in its results file. *)
Definition stored_rows (w : World) : list AttemptRecord :=
  match results_file w with
  | Some (Csv df) => rows df
  | _ => []
  end.

(** A call of the recorder: the arguments of [record_attempt]. *)
Record attempt_call : Type := mkCall {
  ac_animal : string;
  ac_category : string;
  ac_text : string;
  ac_now1 : Calendar.datetime;
  ac_now2 : Calendar.datetime
}.

(** The record that a call builds for the child [cid]. *)
Definition call_record (cid : Z) (c : attempt_call) : AttemptRecord :=
  make_record cid (ac_animal c) (ac_category c)
              (String.eqb (ac_text c) (Str.lower (ac_animal c)))
              (ac_now1 c) (ac_now2 c).

(** A sequence of recorder calls, one after the other. *)
Fixpoint record_attempts (cs : list attempt_call) : M unit :=
  match cs with
  | [] => ret tt
  | c :: cs' =>
      record_attempt (ac_animal c) (ac_category c) (ac_text c)
                     (ac_now1 c) (ac_now2 c) ;;
      record_attempts cs'
  end.

(* ------------------------------------------------------------------ *)
(** ** Concrete data used in the examples *)

Module Examples.

Definition lion : Dataset.AnimalRecord :=
  Dataset.mkAnimal "Lion" "Wild Animal" "lion.png".

Definition eagle : Dataset.AnimalRecord :=
  Dataset.mkAnimal "Eagle" "Bird" "eagle.png".

Definition animal_data : list Dataset.AnimalRecord := [lion; eagle].

(** A fresh session: no results file, child 1, nothing shown. *)
Definition fresh : World := mkWorld None 1 [] [].

(** A session whose results file cannot be parsed. *)
Definition corrupt : World := mkWorld (Some Unparseable) 1 [] [].

Definition day_2024_01_01 : Z := 19723.

(** 2024-01-01T12:00:00 and one second later, local time, UTC+0. *)
Definition noon : Calendar.datetime :=
  Calendar.mkDatetime (day_2024_01_01 * Calendar.us_per_day + 43200000000) 0.

Definition noon_later : Calendar.datetime :=
  Calendar.mkDatetime (day_2024_01_01 * Calendar.us_per_day + 43201000000) 0.

(** 2024-01-01T23:59:59.999999 and 2024-01-02T00:00:00.000003. *)
Definition before_midnight : Calendar.datetime :=
  Calendar.mkDatetime (day_2024_01_01 * Calendar.us_per_day + 86399999999) 0.

Definition after_midnight : Calendar.datetime :=
  Calendar.mkDatetime ((day_2024_01_01 + 1) * Calendar.us_per_day + 3) 0.

(** The user picks the first animal, presses Try Saying Here, and the
    recogniser answers [h]; the clock is read at [t1] and then at [t2]. *)
Definition say (h : recognition) (t1 t2 : Calendar.datetime) : PageInputs :=
  mkInputs 0 true false (Audio "") true h t1 t2.

Definition attempt_on (y m d : Z) (ok : bool) : AttemptRecord :=
  mkAttempt 1 "Lion" "wild animal" 1 (Z.b2z ok) (Z.b2z (negb ok)) 0
            (Calendar.mkDate y m d).

(** Three attempts: 2024-01-01 right, 2024-01-02 wrong, 2024-01-08 right. *)
Definition three_attempts : list AttemptRecord :=
  [attempt_on 2024 1 1 true; attempt_on 2024 1 2 false; attempt_on 2024 1 8 true].

Definition bird_attempt : AttemptRecord :=
  mkAttempt 1 "Eagle" "bird" 1 1 0 0 (Calendar.mkDate 2024 1 3).

Definition two_calls : list attempt_call :=
  [mkCall "Lion" "wild animal" "lion" noon noon_later;
   mkCall "Lion" "wild animal" "line" noon noon_later].

End Examples.

(* ================================================================== *)
(** * Properties of the results store *)

Section StoreFacts.

Lemma ensure_absent (cid : Z) (ta : list test_attempt) (sc : list message) :
  ensure_results_file (mkWorld None cid ta sc)
  = (Ok tt, mkWorld (Some (Csv (mkDF header []))) cid ta sc).
Proof. reflexivity. Qed.

Lemma ensure_present (f : file) (cid : Z) (ta : list test_attempt)
    (sc : list message) :
  ensure_results_file (mkWorld (Some f) cid ta sc)
  = (Ok tt, mkWorld (Some f) cid ta sc).
Proof. reflexivity. Qed.

Lemma ensure_twice (w : World) :
  (ensure_results_file ;; ensure_results_file) w = ensure_results_file w.
Proof.
  destruct w as [[f|] cid ta sc]; reflexivity.
Qed.


Lemma save_to_csv_present (df : DataFrame) (r : AttemptRecord) (w : World) :
  results_file w = Some (Csv df) ->
  save_to_csv r w = (Ok tt, set_file (Some (Csv (concat_record df r))) w).
Proof.
  intros Hf. destruct w as [f cid ta sc]; cbn in Hf; subst f. reflexivity.
Qed.

Lemma save_to_csv_absent (r : AttemptRecord) (w : World) :
  results_file w = None ->
  save_to_csv r w = (Ok tt, set_file (Some (Csv (mkDF header [r]))) w).
Proof.
  intros Hf. destruct w as [f cid ta sc]; cbn in Hf; subst f. reflexivity.
Qed.

Lemma save_to_csv_unparseable (r : AttemptRecord) (w : World) :
  results_file w = Some Unparseable ->
  save_to_csv r w = (Raise ParserError, w).
Proof.
  intros Hf. destruct w as [f cid ta sc]; cbn in Hf; subst f. reflexivity.
Qed.

(** Saving to a store that can be read succeeds, leaves the session and the
    screen alone, and leaves a readable file whose rows are the old rows
    followed by the record. *)
Lemma save_to_csv_rows (r : AttemptRecord) (w : World) :
  results_file w <> Some Unparseable ->
  exists df',
    save_to_csv r w = (Ok tt, set_file (Some (Csv df')) w)
    /\ rows df' = stored_rows w ++ [r].
Proof.
  intros Hok. destruct (results_file w) as [[|df]|] eqn:Hf.
  - congruence.
  - exists (concat_record df r). split.
    + now apply save_to_csv_present.
    + unfold stored_rows; rewrite Hf; reflexivity.
  - exists (mkDF header [r]). split.
    + now apply save_to_csv_absent.
    + unfold stored_rows; rewrite Hf; reflexivity.
Qed.

Lemma record_attempt_rows (name cat text : string) (t1 t2 : Calendar.datetime)
    (w : World) :
  results_file w <> Some Unparseable ->
  exists w' df',
    record_attempt name cat text t1 t2 w = (Ok tt, w')
    /\ results_file w' = Some (Csv df')
    /\ session_child_id w' = session_child_id w
    /\ rows df' = stored_rows w
                  ++ [make_record (session_child_id w) name cat
                        (String.eqb text (Str.lower name)) t1 t2].
Proof.
  intros Hok.
  set (b := String.eqb text (Str.lower name)).
  set (w1 := st_show
               (if b
                then StSuccess ("Correct! You said '" ++ name ++ "'.")
                else StError ("Incorrect. You said '" ++ text ++ "'. Try again."))
               (push_attempt (mkTest name text b) w)).
  assert (Hf1 : results_file w1 = results_file w) by reflexivity.
  assert (Hc1 : session_child_id w1 = session_child_id w) by reflexivity.
  assert (Hs1 : stored_rows w1 = stored_rows w)
    by (unfold stored_rows; now rewrite Hf1).
  destruct (save_to_csv_rows (make_record (session_child_id w1) name cat b t1 t2) w1)
    as (df' & Hsave & Hrows).
  { now rewrite Hf1. }
  exists (set_file (Some (Csv df')) w1), df'.
  split; [| split; [reflexivity | split; [reflexivity|]]].
  - unfold record_attempt, bind, modify. fold b. fold w1. exact Hsave.
  - rewrite Hrows, Hs1, Hc1. reflexivity.
Qed.

Lemma record_attempts_rows (cs : list attempt_call) :
  forall w,
    results_file w <> Some Unparseable ->
    exists w',
      record_attempts cs w = (Ok tt, w')
      /\ results_file w' <> Some Unparseable
      /\ session_child_id w' = session_child_id w
      /\ stored_rows w' = stored_rows w ++ map (call_record (session_child_id w)) cs.
Proof.
  induction cs as [|c cs IH]; intros w Hok.
  - exists w. cbn. rewrite app_nil_r. auto.
  - destruct (record_attempt_rows (ac_animal c) (ac_category c) (ac_text c)
                (ac_now1 c) (ac_now2 c) w Hok) as (w1 & df1 & Hrun & Hf1 & Hc1 & Hr1).
    destruct (IH w1) as (w' & Hrun' & Hok' & Hc' & Hr').
    { rewrite Hf1; discriminate. }
    exists w'. split; [| split; [exact Hok' | split; [congruence|]]].
    + cbn [record_attempts]. unfold bind at 1. rewrite Hrun. exact Hrun'.
    + rewrite Hr'. unfold stored_rows at 1. rewrite Hf1, Hr1, Hc1.
      cbn [map]. rewrite <- app_assoc. reflexivity.
Qed.

Lemma load_results_rows (w : World) :
  results_file w <> Some Unparseable ->
  exists df w', load_results w = (Ok df, w') /\ rows df = stored_rows w.
Proof.
  intros Hok. destruct w as [[[|df]|] cid ta sc]; cbn in Hok.
  - congruence.
  - eexists _, _. split; reflexivity.
  - eexists _, _. split; reflexivity.
Qed.

End StoreFacts.

(* ================================================================== *)
(** * Properties of the grouping *)

Section GroupingFacts.

Variable key : AttemptRecord -> Z.

Lemma add_row_periods (k : Z) (r : AttemptRecord) (bs : list bucket) (x : Z) :
  In x (periods (add_row k r bs)) <-> x = k \/ In x (periods bs).
Proof.
  induction bs as [|b bs IH]; cbn.
  - intuition.
  - destruct (k <? period b) eqn:Hlt; [cbn; intuition|].
    destruct (k =? period b) eqn:Heq.
    + apply Z.eqb_eq in Heq. cbn. intuition congruence.
    + cbn. rewrite IH. intuition.
Qed.

Lemma add_row_sorted (k : Z) (r : AttemptRecord) (bs : list bucket) :
  StronglySorted Z.lt (periods bs) ->
  StronglySorted Z.lt (periods (add_row k r bs)).
Proof.
  induction bs as [|b bs IH]; intros Hs; cbn.
  - repeat constructor.
  - inversion Hs as [|? ? Hs' Hall]; subst.
    destruct (k <? period b) eqn:Hlt.
    + apply Z.ltb_lt in Hlt. cbn. constructor; [exact Hs|].
      constructor; [exact Hlt|].
      eapply Forall_impl; [|exact Hall]. cbn; intros; lia.
    + apply Z.ltb_ge in Hlt.
      destruct (k =? period b) eqn:Heq.
      * apply Z.eqb_eq in Heq. cbn. rewrite Heq. exact Hs.
      * apply Z.eqb_neq in Heq. cbn. constructor; [now apply IH|].
        apply Forall_forall. intros x Hx.
        apply add_row_periods in Hx. destruct Hx as [->|Hx]; [lia|].
        rewrite Forall_forall in Hall. now apply Hall.
Qed.

Lemma add_row_sum (col : bucket -> Z) (rcol : AttemptRecord -> Z)
    (k : Z) (r : AttemptRecord) (bs : list bucket) :
  (forall p a c i, col (mkBucket p (a + attempt r) (c + correct r) (i + incorrect r))
                   = col (mkBucket p a c i) + rcol r) ->
  col (mkBucket k (attempt r) (correct r) (incorrect r)) = rcol r ->
  bucket_sum col (add_row k r bs) = bucket_sum col bs + rcol r.
Proof.
  intros Hadd Hnew. unfold bucket_sum.
  induction bs as [|b bs IH]; cbn.
  - rewrite Hnew. lia.
  - destruct (k <? period b); [cbn; rewrite Hnew; lia|].
    destruct (k =? period b) eqn:Heq.
    + apply Z.eqb_eq in Heq. cbn. rewrite Hadd, Heq. destruct b; cbn. lia.
    + cbn. rewrite IH. lia.
Qed.

Lemma fold_add_row_periods (records : list AttemptRecord) :
  forall acc x,
    In x (periods (fold_left (fun a r => add_row (key r) r a) records acc))
    <-> In x (map key records) \/ In x (periods acc).
Proof.
  induction records as [|r rs IH]; intros acc x; cbn.
  - intuition.
  - rewrite IH, add_row_periods. intuition.
Qed.

Lemma fold_add_row_sorted (records : list AttemptRecord) :
  forall acc,
    StronglySorted Z.lt (periods acc) ->
    StronglySorted Z.lt
      (periods (fold_left (fun a r => add_row (key r) r a) records acc)).
Proof.
  induction records as [|r rs IH]; intros acc Hs; cbn; [exact Hs|].
  apply IH. now apply add_row_sorted.
Qed.

Lemma column_sum_cons (col : AttemptRecord -> Z) (r : AttemptRecord)
    (rs : list AttemptRecord) :
  column_sum col (r :: rs) = col r + column_sum col rs.
Proof. reflexivity. Qed.

Lemma fold_add_row_sum (col : bucket -> Z) (rcol : AttemptRecord -> Z) :
  (forall r p a c i,
      col (mkBucket p (a + attempt r) (c + correct r) (i + incorrect r))
      = col (mkBucket p a c i) + rcol r) ->
  (forall k r, col (mkBucket k (attempt r) (correct r) (incorrect r)) = rcol r) ->
  forall records acc,
    bucket_sum col (fold_left (fun a r => add_row (key r) r a) records acc)
    = bucket_sum col acc + column_sum rcol records.
Proof.
  intros Hadd Hnew. induction records as [|r rs IH]; intros acc; cbn [fold_left].
  - cbn. lia.
  - rewrite IH, column_sum_cons. rewrite (add_row_sum col rcol); auto. lia.
Qed.

Lemma groupby_sum_periods (records : list AttemptRecord) (x : Z) :
  In x (periods (groupby_sum key records)) <-> In x (map key records).
Proof.
  unfold groupby_sum. rewrite fold_add_row_periods. cbn. intuition.
Qed.

Lemma groupby_sum_sorted (records : list AttemptRecord) :
  StronglySorted Z.lt (periods (groupby_sum key records)).
Proof.
  apply fold_add_row_sorted. constructor.
Qed.

Lemma groupby_sum_attempt (records : list AttemptRecord) :
  bucket_sum attempt_sum (groupby_sum key records) = column_sum attempt records.
Proof.
  unfold groupby_sum. now rewrite (fold_add_row_sum attempt_sum attempt).
Qed.

Lemma groupby_sum_correct (records : list AttemptRecord) :
  bucket_sum correct_sum (groupby_sum key records) = column_sum correct records.
Proof.
  unfold groupby_sum. now rewrite (fold_add_row_sum correct_sum correct).
Qed.

Lemma groupby_sum_incorrect (records : list AttemptRecord) :
  bucket_sum incorrect_sum (groupby_sum key records) = column_sum incorrect records.
Proof.
  unfold groupby_sum. now rewrite (fold_add_row_sum incorrect_sum incorrect).
Qed.

(** A strictly ascending list has no repeated element. *)
Lemma ascending_NoDup (l : list Z) : StronglySorted Z.lt l -> NoDup l.
Proof.
  induction 1 as [|a l Hs IH Hall]; constructor; [|exact IH].
  intros Hin. rewrite Forall_forall in Hall. specialize (Hall a Hin). lia.
Qed.

Lemma column_sum_app (col : AttemptRecord -> Z) (xs ys : list AttemptRecord) :
  column_sum col (xs ++ ys) = column_sum col xs + column_sum col ys.
Proof.
  induction xs as [|x xs IH]; [reflexivity|].
  cbn [app]. rewrite !column_sum_cons, IH. lia.
Qed.

Lemma members_snoc (k : Z) (records : list AttemptRecord) (r : AttemptRecord) :
  members key k (records ++ [r])
  = members key k records ++ (if key r =? k then [r] else []).
Proof.
  unfold members. rewrite filter_app. reflexivity.
Qed.

Lemma column_sum_snoc (col : AttemptRecord -> Z) (xs : list AttemptRecord)
    (r : AttemptRecord) :
  column_sum col (xs ++ [r]) = column_sum col xs + col r.
Proof.
  rewrite column_sum_app. cbn. lia.
Qed.

(** A bucket of another period is not touched by a new row. *)
Lemma group_ok_other (seen : list AttemptRecord) (r : AttemptRecord) (b : bucket) :
  period b <> key r ->
  group_ok key seen b -> group_ok key (seen ++ [r]) b.
Proof.
  intros Hne (Ha & Hc & Hi). unfold group_ok.
  rewrite members_snoc.
  destruct (key r =? period b) eqn:E; [apply Z.eqb_eq in E; congruence|].
  now rewrite app_nil_r.
Qed.

Lemma group_ok_new (seen : list AttemptRecord) (r : AttemptRecord) :
  members key (key r) seen = [] ->
  group_ok key (seen ++ [r])
           (mkBucket (key r) (attempt r) (correct r) (incorrect r)).
Proof.
  intros Hnone. unfold group_ok; cbn [period attempt_sum correct_sum incorrect_sum].
  rewrite members_snoc, Hnone, Z.eqb_refl. cbn. repeat split; lia.
Qed.

Lemma group_ok_merge (seen : list AttemptRecord) (r : AttemptRecord) (b : bucket) :
  key r = period b ->
  group_ok key seen b ->
  group_ok key (seen ++ [r])
           (mkBucket (key r) (attempt_sum b + attempt r)
                     (correct_sum b + correct r) (incorrect_sum b + incorrect r)).
Proof.
  intros Hk (Ha & Hc & Hi).
  unfold group_ok; cbn [period attempt_sum correct_sum incorrect_sum].
  rewrite members_snoc, Z.eqb_refl, !column_sum_snoc, Hk.
  repeat split; congruence.
Qed.

Lemma members_none (k : Z) (seen : list AttemptRecord) :
  ~ In k (map key seen) -> members key k seen = [].
Proof.
  induction seen as [|s seen IH]; cbn; intros Hnot; [reflexivity|].
  destruct (key s =? k) eqn:E.
  - apply Z.eqb_eq in E. tauto.
  - apply IH. tauto.
Qed.

Lemma add_row_groups (seen : list AttemptRecord) (r : AttemptRecord)
    (bs : list bucket) :
  StronglySorted Z.lt (periods bs) ->
  (~ In (key r) (periods bs) -> members key (key r) seen = []) ->
  Forall (group_ok key seen) bs ->
  Forall (group_ok key (seen ++ [r])) (add_row (key r) r bs).
Proof.
  induction bs as [|b bs IH]; intros Hs Hfresh Hok; cbn.
  - constructor; [|constructor]. apply group_ok_new. apply Hfresh. cbn; tauto.
  - inversion Hs as [|? ? Hs' Hall]; subst.
    inversion Hok as [|? ? Hb Hok']; subst.
    rewrite Forall_forall in Hall.
    assert (Hrest : forall b', In b' bs -> period b < period b').
    { intros b' Hin. apply Hall. unfold periods. now apply in_map. }
    destruct (key r <? period b) eqn:Hlt.
    + apply Z.ltb_lt in Hlt. constructor.
      * apply group_ok_new. apply Hfresh. cbn. intros [E|Hin]; [lia|].
        specialize (Hall _ Hin). lia.
      * constructor; [apply group_ok_other; [lia | exact Hb]|].
        rewrite Forall_forall in *. intros b' Hin.
        apply group_ok_other; [specialize (Hrest b' Hin); lia | now apply Hok'].
    + apply Z.ltb_ge in Hlt.
      destruct (key r =? period b) eqn:Heq.
      * apply Z.eqb_eq in Heq. constructor; [now apply group_ok_merge|].
        rewrite Forall_forall in *. intros b' Hin.
        apply group_ok_other; [specialize (Hrest b' Hin); lia | now apply Hok'].
      * apply Z.eqb_neq in Heq. constructor.
        -- apply group_ok_other; [congruence | exact Hb].
        -- apply IH; [exact Hs' | | exact Hok'].
           intros Hnot. apply Hfresh. cbn. intros [E|Hin]; [congruence|tauto].
Qed.

Lemma fold_add_row_groups (records : list AttemptRecord) :
  forall seen acc,
    StronglySorted Z.lt (periods acc) ->
    (forall x, In x (periods acc) <-> In x (map key seen)) ->
    Forall (group_ok key seen) acc ->
    Forall (group_ok key (seen ++ records))
           (fold_left (fun a r => add_row (key r) r a) records acc).
Proof.
  induction records as [|r rs IH]; intros seen acc Hs Hkeys Hok; cbn.
  - now rewrite app_nil_r.
  - replace (seen ++ r :: rs) with ((seen ++ [r]) ++ rs)
      by (rewrite <- app_assoc; reflexivity).
    apply IH.
    + now apply add_row_sorted.
    + intros x. rewrite add_row_periods, map_app, in_app_iff, Hkeys. cbn. intuition.
    + apply add_row_groups; auto.
      intros Hnot. apply members_none. now rewrite <- Hkeys.
Qed.

(** Every bucket of the result carries the sums of the rows of its period. *)
Lemma groupby_sum_groups (records : list AttemptRecord) :
  Forall (group_ok key records) (groupby_sum key records).
Proof.
  unfold groupby_sum.
  apply (fold_add_row_groups records [] []); [constructor | cbn; tauto | constructor].
Qed.


End GroupingFacts.

(* ================================================================== *)
(** * Properties of the calendar arithmetic *)

Section CalendarFacts.

Import Calendar.

(** Month and day from the day of the year that starts on 1 March. *)
Lemma month_day_of_doy (mp dd : Z) :
  0 <= mp <= 11 -> 1 <= dd ->
  dd <= (153 * (mp + 1) + 2) / 5 - (153 * mp + 2) / 5 ->
  (5 * ((153 * mp + 2) / 5 + dd - 1) + 2) / 153 = mp
  /\ ((153 * mp + 2) / 5 + dd - 1) - (153 * mp + 2) / 5 + 1 = dd.
Proof.
  intros Hmp Hd1 Hd2.
  assert (Hc : mp = 0 \/ mp = 1 \/ mp = 2 \/ mp = 3 \/ mp = 4 \/ mp = 5 \/ mp = 6
               \/ mp = 7 \/ mp = 8 \/ mp = 9 \/ mp = 10 \/ mp = 11) by lia.
  split; [|lia].
  repeat (destruct Hc as [->|Hc]); [..|subst mp]; Z.div_mod_to_equations; lia.
Qed.

Lemma year_of_doe (yoe doy : Z) :
  0 <= yoe < 400 ->
  0 <= doy <= 364 \/ (doy = 365 /\ leap_yoe yoe) ->
  0 <= yoe * 365 + yoe / 4 - yoe / 100 + doy < 146097
  /\ ((yoe * 365 + yoe / 4 - yoe / 100 + doy)
      - (yoe * 365 + yoe / 4 - yoe / 100 + doy) / 1460
      + (yoe * 365 + yoe / 4 - yoe / 100 + doy) / 36524
      - (yoe * 365 + yoe / 4 - yoe / 100 + doy) / 146096) / 365 = yoe.
Proof.
  unfold leap_yoe. intros Hy Hd. Z.div_mod_to_equations; lia.
Qed.

Lemma era_of_days (era doe : Z) :
  0 <= doe < 146097 -> (era * 146097 + doe) / 146097 = era.
Proof. intros. Z.div_mod_to_equations; lia. Qed.

Lemma is_leap_true (y : Z) :
  is_leap y = true <-> y mod 4 = 0 /\ (y mod 100 <> 0 \/ y mod 400 = 0).
Proof.
  unfold is_leap.
  rewrite orb_true_iff, andb_true_iff, negb_true_iff, !Z.eqb_eq, Z.eqb_neq.
  split; [|tauto].
  intros [H|H]; [tauto|]. split; [|tauto]. Z.div_mod_to_equations; lia.
Qed.

Lemma days_in_month_cases (y m : Z) :
  1 <= m <= 12 ->
  (m = 2 /\ is_leap y = true /\ days_in_month y m = 29)
  \/ (m = 2 /\ is_leap y = false /\ days_in_month y m = 28)
  \/ ((m = 4 \/ m = 6 \/ m = 9 \/ m = 11) /\ days_in_month y m = 30)
  \/ ((m = 1 \/ m = 3 \/ m = 5 \/ m = 7 \/ m = 8 \/ m = 10 \/ m = 12)
      /\ days_in_month y m = 31).
Proof.
  intros Hm. unfold days_in_month.
  destruct (Z.eqb_spec m 2).
  - destruct (is_leap y); [left | right; left]; auto.
  - right; right.
    destruct (Z.eqb_spec m 4); [left; cbn; lia|].
    destruct (Z.eqb_spec m 6); [left; cbn; lia|].
    destruct (Z.eqb_spec m 9); [left; cbn; lia|].
    destruct (Z.eqb_spec m 11); [left; cbn; lia|].
    right; cbn; lia.
Qed.

(** Every month has at least 28 days: day 1 of a month is a date. *)
Lemma first_of_month_valid (d : date) :
  valid d -> valid (mkDate (year d) (month d) 1).
Proof.
  unfold valid; cbn [year month day]. intros [Hm _]. split; [exact Hm|].
  pose proof (days_in_month_cases (year d) (month d) Hm). lia.
Qed.

(** A date is recovered from its day number. *)
Lemma civil_from_days_from_civil (d : date) :
  valid d -> civil_from_days (days_from_civil d) = d.
Proof.
  destruct d as [y m dd]. unfold valid; cbn [year month day]. intros [Hm Hd].
  unfold days_from_civil; cbn [year month day].
  set (y' := if m <=? 2 then y - 1 else y).
  set (era := y' / 400).
  set (yoe := y' - era * 400).
  set (mp := (m + 9) mod 12).
  set (doy := (153 * mp + 2) / 5 + dd - 1).
  assert (Hy' : y' = if m <=? 2 then y - 1 else y) by reflexivity.
  assert (Eera : era = y' / 400) by reflexivity.
  assert (Eyoe : yoe = y' - era * 400) by reflexivity.
  assert (Emp : mp = (m + 9) mod 12) by reflexivity.
  assert (Edoy : doy = (153 * mp + 2) / 5 + dd - 1) by reflexivity.
  assert (Hyoe : 0 <= yoe < 400) by (Z.div_mod_to_equations; lia).
  assert (Hmp : 0 <= mp <= 11) by (Z.div_mod_to_equations; lia).
  assert (Hmm : (if mp <? 10 then mp + 3 else mp - 9) = m).
  { destruct (mp <? 10) eqn:E;
      [apply Z.ltb_lt in E | apply Z.ltb_ge in E]; Z.div_mod_to_equations; lia. }
  assert (Hlen : dd <= (153 * (mp + 1) + 2) / 5 - (153 * mp + 2) / 5
                 /\ (0 <= doy <= 364 \/ (doy = 365 /\ leap_yoe yoe))).
  { pose proof (days_in_month_cases y m Hm) as Hc.
    destruct (Z.leb_spec m 2) as [Hle|Hgt].
    - destruct Hc as [(E2 & Hl & Hc)|[(E2 & Hl & Hc)|[(Hc' & Hc)|(Hc' & Hc)]]].
      + apply is_leap_true in Hl. unfold leap_yoe.
        Z.div_mod_to_equations; lia.
      + Z.div_mod_to_equations; lia.
      + lia.
      + assert (E1 : m = 1) by lia. Z.div_mod_to_equations; lia.
    - assert (Hc2 : 1 <= dd <= 31 /\ (m = 4 \/ m = 6 \/ m = 9 \/ m = 11 -> dd <= 30))
        by lia.
      clear Hc Hd Hy' Eera Eyoe Hyoe.
      assert (Hcs : m = 3 \/ m = 4 \/ m = 5 \/ m = 6 \/ m = 7 \/ m = 8 \/ m = 9
                    \/ m = 10 \/ m = 11 \/ m = 12) by lia.
      repeat (destruct Hcs as [Hcs|Hcs]); Z.div_mod_to_equations; lia. }
  destruct Hlen as [Hlen Hdoy].
  destruct (month_day_of_doy mp dd Hmp (proj1 Hd) Hlen) as [Hmp' Hdd'].
  fold doy in Hmp', Hdd'.
  destruct (year_of_doe yoe doy Hyoe Hdoy) as [Hdoe Hyoe'].
  set (doe := yoe * 365 + yoe / 4 - yoe / 100 + doy) in *.
  unfold civil_from_days.
  replace (era * 146097 + doe - 719468 + 719468) with (era * 146097 + doe) by lia.
  rewrite (era_of_days era doe Hdoe).
  replace (era * 146097 + doe - era * 146097) with doe by lia.
  rewrite Hyoe'.
  replace (doe - (365 * yoe + yoe / 4 - yoe / 100)) with doy by (unfold doe; lia).
  rewrite Hmp', Hdd', Hmm.
  f_equal.
  rewrite Eyoe. destruct (m <=? 2); lia.
Qed.

(** The start of a week is a Monday, at most six days back. *)
Lemma week_start_monday (n : Z) :
  weekday (week_start n) = 0 /\ week_start n <= n <= week_start n + 6.
Proof.
  unfold week_start, weekday. Z.div_mod_to_equations; lia.
Qed.

(** It is the only Monday in that range. *)
Lemma week_start_unique (n k : Z) :
  weekday k = 0 -> k <= n <= k + 6 -> k = week_start n.
Proof.
  unfold week_start, weekday. intros H0 Hr. Z.div_mod_to_equations; lia.
Qed.

(** The start of the month of a date, seen from its day number. *)
Lemma month_start_of_day_number (d : date) :
  valid d ->
  month_start (civil_from_days (days_from_civil d))
  = days_from_civil (mkDate (year d) (month d) 1).
Proof.
  intros Hv. now rewrite civil_from_days_from_civil.
Qed.

End CalendarFacts.

(* ================================================================== *)
(** * Properties of the animal pages *)

Section PageFacts.

Variable animal_data : list Dataset.AnimalRecord.

Lemma lower_ascii_idempotent (c : ascii) :
  Str.lower_ascii (Str.lower_ascii c) = Str.lower_ascii c.
Proof.
  destruct c as [[] [] [] [] [] [] [] []]; reflexivity.
Qed.

Lemma lower_idempotent (s : string) : Str.lower (Str.lower s) = Str.lower s.
Proof.
  induction s as [|c s IH]; cbn; [reflexivity|].
  now rewrite lower_ascii_idempotent, IH.
Qed.

(** What the recogniser hands to the page. *)
Lemma recognize_speech_result (h : recognition) (w : World) :
  exists w',
    results_file w' = results_file w
    /\ session_child_id w' = session_child_id w
    /\ test_attempts w' = test_attempts w
    /\ match h with
       | Recognized raw =>
           recognize_speech h w = (Ok (Some (Str.lower raw)), w')
       | UnknownValueError | RequestError =>
           recognize_speech h w = (Ok None, w')
           /\ exists shown, screen w' = shown ++ [StError could_not_understand]
       end.
Proof.
  destruct h.
  - exists (st_show (StInfo "Listening... Please say the animal's name.") w).
    repeat split.
  - exists (st_show (StError could_not_understand)
              (st_show (StInfo "Listening... Please say the animal's name.") w)).
    repeat split. eexists. reflexivity.
  - exists (st_show (StError could_not_understand)
              (st_show (StInfo "Listening... Please say the animal's name.") w)).
    repeat split. eexists. reflexivity.
Qed.

(** A run of an animal page either leaves the file and the session's
    attempts as they were, or is one call of the recorder: the name is one
    of the page's animals, the text is the lower-cased answer of the
    recogniser and is not empty. *)
Lemma animal_page_cases (cat : string) (inp : PageInputs) (w : World) :
  (exists w',
      animal_page animal_data cat inp w = (Ok tt, w')
      /\ results_file w' = results_file w
      /\ test_attempts w' = test_attempts w
      /\ (heard inp = Recognized EmptyString
          \/ heard inp = UnknownValueError
          \/ heard inp = RequestError
          \/ try_saying inp = false
          \/ get_animal_details animal_data cat = []))
  \/ (exists name raw w1,
         animal_page animal_data cat inp w
         = record_attempt name cat (Str.lower raw) (now1 inp) (now2 inp) w1
         /\ In name (map Dataset.animal_name (get_animal_details animal_data cat))
         /\ try_saying inp = true
         /\ heard inp = Recognized raw
         /\ Str.lower raw <> EmptyString
         /\ results_file w1 = results_file w
         /\ session_child_id w1 = session_child_id w
         /\ test_attempts w1 = test_attempts w).
Proof.
  unfold animal_page.
  destruct (get_animal_details animal_data cat) as [|first rest] eqn:Hdet.
  - left. eexists. split; [reflexivity|]. cbn. auto 10.
  - set (names := map Dataset.animal_name (first :: rest)).
    set (name := nth (selected_index inp) names (Dataset.animal_name first)).
    assert (Hname : In name names).
    { subst name. destruct (Nat.lt_ge_cases (selected_index inp) (List.length names)).
      - now apply nth_In.
      - rewrite nth_overflow by assumption. left. reflexivity. }
    destruct (try_saying inp) eqn:Htry.
    + destruct (heard inp) as [raw| |] eqn:Hh.
      * destruct (Str.lower raw) as [|c s] eqn:Hlow.
        -- left. destruct raw; [|discriminate].
           destruct (image_loads inp), (play_sound inp), (tts inp);
             cbn; rewrite ?Hh; cbn; eexists; (split; [reflexivity|]); cbn; auto 10.
        -- right. exists name, raw.
           destruct (image_loads inp), (play_sound inp), (tts inp);
             eexists;
             (split;
              [ unfold bind, ret, modify, generate_audio, recognize_speech;
                rewrite ?Hh; cbv beta iota; rewrite Hlow;
                cbv beta iota delta [Str.truthy fst snd]; reflexivity
              | repeat split;
                [ exact Hname | rewrite Hlow; discriminate ] ]).
      * left.
        destruct (image_loads inp), (play_sound inp), (tts inp);
          cbn; rewrite ?Hh; cbn; eexists; (split; [reflexivity|]); cbn; auto 10.
      * left.
        destruct (image_loads inp), (play_sound inp), (tts inp);
          cbn; rewrite ?Hh; cbn; eexists; (split; [reflexivity|]); cbn; auto 10.
    + left.
      destruct (image_loads inp), (play_sound inp), (tts inp);
        cbn; eexists; (split; [reflexivity|]); cbn; auto 10.
Qed.

End PageFacts.

(* ================================================================== *)
(** * The recorder *)

Section RecorderFacts.


(** The clock is read twice: the timestamp comes from the first reading,
    the date from the second. *)
Lemma make_record_clock (cid : Z) (name cat : string) (is_correct : bool)
    (t1 t2 : Calendar.datetime) :
  let r := make_record cid name cat is_correct t1 t2 in
  timestamp r = Calendar.timestamp_of t1 /\ date r = Calendar.date_of t2.
Proof. split; reflexivity. Qed.

(** When both readings fall on the same local day, the date of the record
    is the date of the reading its timestamp was taken from. *)
Lemma make_record_same_day (cid : Z) (name cat : string) (is_correct : bool)
    (t1 t2 : Calendar.datetime) :
  Calendar.wall_us t1 / Calendar.us_per_day
  = Calendar.wall_us t2 / Calendar.us_per_day ->
  date (make_record cid name cat is_correct t1 t2) = Calendar.date_of t1.
Proof.
  intros Hday. cbn. unfold Calendar.date_of. now rewrite Hday.
Qed.

(** A run of a page on which the recogniser answers [raw], not empty, on a
    store that can be read: one record is appended, marked correct exactly
    when the lower-cased answer is the lower-cased name. *)
Lemma animal_page_records (animal_data : list Dataset.AnimalRecord)
    (cat raw : string) (inp : PageInputs) (w : World) :
  get_animal_details animal_data cat <> [] ->
  try_saying inp = true ->
  heard inp = Recognized raw ->
  Str.lower raw <> EmptyString ->
  results_file w <> Some Unparseable ->
  exists name w',
    In name (map Dataset.animal_name (get_animal_details animal_data cat))
    /\ animal_page animal_data cat inp w = (Ok tt, w')
    /\ stored_rows w'
       = stored_rows w
         ++ [make_record (session_child_id w) name cat
               (String.eqb (Str.lower raw) (Str.lower name))
               (now1 inp) (now2 inp)].
Proof.
  intros Hdet Htry Hh Hlow Hok.
  destruct (animal_page_cases animal_data cat inp w)
    as [(w' & _ & _ & _ & Hno)|(name & raw' & w1 & Hrun & Hname & _ & Hh' & _ & Hf & Hc & _)].
  - exfalso. destruct Hno as [E|[E|[E|[E|E]]]]; try congruence.
    rewrite Hh in E. injection E as ->. now apply Hlow.
  - rewrite Hh in Hh'. injection Hh' as <-.
    destruct (record_attempt_rows name cat (Str.lower raw) (now1 inp) (now2 inp) w1)
      as (w' & df' & Hrec & Hf' & _ & Hrows).
    { now rewrite Hf. }
    exists name, w'. split; [exact Hname|]. split; [congruence|].
    unfold stored_rows at 1. rewrite Hf', Hrows, Hc.
    unfold stored_rows. now rewrite Hf.
Qed.

End RecorderFacts.

(** C1.  The record of an attempt has attempt 1, correct 1 exactly when the
    lower-cased recognised text is the lower-cased animal name, and
    incorrect the complement; but its date is the calendar date of a second
    reading of the clock, not of the reading that gave the timestamp.  Here
    the child says lion for Lion one microsecond before midnight of
    2024-01-01: the stored row is correct, its timestamp is that of
    2024-01-01T23:59:59.999999, and its date is 2024-01-02. *)
Theorem record_date_is_read_after_timestamp :
  let inp := Examples.say (Recognized "lion")
                          Examples.before_midnight Examples.after_midnight in
  let w' := snd (animal_page Examples.animal_data "wild animal" inp Examples.fresh) in
  stored_rows w'
  = [mkAttempt 1 "Lion" "wild animal" 1 1 0
       (Calendar.timestamp_of Examples.before_midnight)
       (Calendar.mkDate 2024 1 2)]
  /\ Calendar.date_of Examples.before_midnight = Calendar.mkDate 2024 1 1
  /\ Calendar.date_of Examples.after_midnight = Calendar.mkDate 2024 1 2
  /\ Calendar.mkDate 2024 1 2 <> Calendar.mkDate 2024 1 1.
Proof.
  cbv zeta. split; [vm_compute; reflexivity|].
  split; [vm_compute; reflexivity|].
  split; [vm_compute; reflexivity|discriminate].
Qed.

(** The two outcomes of the scenario of the specification: lion for Lion is
    correct, line for Lion is incorrect. *)
Example lion_then_line :
  exists w',
    record_attempts Examples.two_calls Examples.fresh = (Ok tt, w')
    /\ map (fun r => (correct r, incorrect r)) (stored_rows w') = [(1, 0); (0, 1)].
Proof. eexists. split; vm_compute; reflexivity. Qed.

(* ================================================================== *)
(** * Claims about the results store *)

(** C2.  From any store that can be read, a sequence of recorder calls
    succeeds and a load afterwards returns the rows that were stored,
    unchanged, followed by the records of the calls in call order.  Each
    save appends its record as the last row of the table it read; loading a
    store without rows returns a table without rows, not an error. *)
Theorem store_is_append_only (w : World) (cs : list attempt_call) :
  results_file w <> Some Unparseable ->
  (exists w' df w'',
      record_attempts cs w = (Ok tt, w')
      /\ load_results w' = (Ok df, w'')
      /\ rows df = stored_rows w ++ map (call_record (session_child_id w)) cs)
  /\ (forall r, exists df',
         save_to_csv r w = (Ok tt, set_file (Some (Csv df')) w)
         /\ rows df' = stored_rows w ++ [r])
  /\ (stored_rows w = [] ->
      exists df w', load_results w = (Ok df, w') /\ rows df = []).
Proof.
  intros Hok. split; [|split].
  - destruct (record_attempts_rows cs w Hok) as (w' & Hrun & Hok' & _ & Hrows).
    destruct (load_results_rows w' Hok') as (df & w'' & Hload & Hdf).
    exists w', df, w''. repeat split; congruence.
  - intros r. now apply save_to_csv_rows.
  - intros Hempty. destruct (load_results_rows w Hok) as (df & w' & Hload & Hdf).
    exists df, w'. split; congruence.
Qed.

Lemma store_is_append_only_witness :
  (exists w' df w'',
      record_attempts Examples.two_calls Examples.fresh = (Ok tt, w')
      /\ load_results w' = (Ok df, w'')
      /\ rows df = stored_rows Examples.fresh
                   ++ map (call_record (session_child_id Examples.fresh))
                          Examples.two_calls)
  /\ (forall r, exists df',
         save_to_csv r Examples.fresh
         = (Ok tt, set_file (Some (Csv df')) Examples.fresh)
         /\ rows df' = stored_rows Examples.fresh ++ [r])
  /\ (stored_rows Examples.fresh = [] ->
      exists df w', load_results Examples.fresh = (Ok df, w') /\ rows df = []).
Proof.
  apply (store_is_append_only Examples.fresh Examples.two_calls).
  discriminate.
Defined.

(** C7.  [ensure_results_file] creates a missing file with exactly the
    eight header columns and no rows, leaves an existing file and the rest
    of the world untouched without raising, and calling it twice is the
    same as calling it once. *)
Theorem ensure_results_file_idempotent :
  (forall cid ta sc,
      ensure_results_file (mkWorld None cid ta sc)
      = (Ok tt,
         mkWorld (Some (Csv (mkDF ["child_id"; "animal_name"; "category";
                                   "attempt"; "correct"; "incorrect";
                                   "timestamp"; "date"]%string [])))
                 cid ta sc))
  /\ (forall f cid ta sc,
         ensure_results_file (mkWorld (Some f) cid ta sc)
         = (Ok tt, mkWorld (Some f) cid ta sc))
  /\ (forall w,
         (ensure_results_file ;; ensure_results_file) w = ensure_results_file w).
Proof.
  split; [|split].
  - intros. apply ensure_absent.
  - intros. apply ensure_present.
  - apply ensure_twice.
Qed.

(** C8.  When the results file exists and cannot be parsed, saving and
    loading both raise the parser's exception and leave the world as it
    was: nothing is written and no empty table is returned.  The callers do
    not catch it: the recorder and the dashboard page raise it too, and the
    file is still the unparseable one. *)
Theorem unparseable_file_raises (cid : Z) (ta : list test_attempt)
    (sc : list message) (record : AttemptRecord) (tf : time_filter)
    (choice : nat) (name cat text : string) (t1 t2 : Calendar.datetime) :
  let w := mkWorld (Some Unparseable) cid ta sc in
  save_to_csv record w = (Raise ParserError, w)
  /\ load_results w = (Raise ParserError, w)
  /\ dashboard_page tf choice w = (Raise ParserError, w)
  /\ fst (record_attempt name cat text t1 t2 w) = Raise ParserError
  /\ results_file (snd (record_attempt name cat text t1 t2 w)) = Some Unparseable.
Proof.
  cbv zeta. repeat split.
Qed.

(* ================================================================== *)
(** * Claims about the animal pages *)

(** C9.  When the recogniser fails, with either kind of failure, the page
    finishes without raising, the results file and the attempts of the
    session are what they were, and, if the page had animals to show and
    the button was pressed, the last thing on the screen is the error
    message of the failure. *)
Theorem failed_recognition_records_nothing
    (animal_data : list Dataset.AnimalRecord) (cat : string)
    (inp : PageInputs) (w : World) :
  heard inp = UnknownValueError \/ heard inp = RequestError ->
  exists w',
    animal_page animal_data cat inp w = (Ok tt, w')
    /\ results_file w' = results_file w
    /\ test_attempts w' = test_attempts w
    /\ (get_animal_details animal_data cat <> [] ->
        try_saying inp = true ->
        exists shown, screen w' = shown ++ [StError could_not_understand]).
Proof.
  intros Hfail.
  destruct (animal_page_cases animal_data cat inp w)
    as [(w' & Hrun & Hf & Hta & _)|(name & raw & w1 & _ & _ & _ & Hh & _)].
  - exists w'. repeat split; auto.
    intros Hdet Htry. revert Hrun. unfold animal_page.
    destruct (get_animal_details animal_data cat) as [|first rest];
      [congruence|].
    rewrite Htry.
    destruct (image_loads inp), (play_sound inp), (tts inp);
      destruct Hfail as [Hh|Hh]; rewrite Hh; cbn;
      intros E; injection E as <-; cbn; eexists; reflexivity.
  - destruct Hfail; congruence.
Qed.

Lemma failed_recognition_records_nothing_witness :
  exists w',
    animal_page Examples.animal_data "wild animal"
                (Examples.say RequestError Examples.noon Examples.noon_later)
                Examples.fresh = (Ok tt, w')
    /\ results_file w' = results_file Examples.fresh
    /\ test_attempts w' = test_attempts Examples.fresh
    /\ (get_animal_details Examples.animal_data "wild animal" <> [] ->
        try_saying (Examples.say RequestError Examples.noon Examples.noon_later)
        = true ->
        exists shown, screen w' = shown ++ [StError could_not_understand]).
Proof.
  apply (failed_recognition_records_nothing Examples.animal_data "wild animal"
           (Examples.say RequestError Examples.noon Examples.noon_later)
           Examples.fresh).
  right. reflexivity.
Defined.

Section OptionFacts.

Lemma unique_In (xs : list string) (x : string) : In x (unique xs) <-> In x xs.
Proof.
  induction xs as [|y ys IH]; cbn; [tauto|].
  rewrite filter_In, IH, negb_true_iff, String.eqb_neq.
  destruct (String.eqb_spec x y) as [->|Hne]; [tauto|].
  split; [intros [E|[H _]]; [left; congruence | tauto] | intros [E|H]; [congruence|tauto]].
Qed.

Lemma unique_NoDup (xs : list string) : NoDup (unique xs).
Proof.
  induction xs as [|y ys IH]; cbn; constructor.
  - rewrite filter_In, negb_true_iff, String.eqb_neq. tauto.
  - now apply NoDup_filter.
Qed.

Lemma filter_category_In (f : string) (records : list AttemptRecord)
    (r : AttemptRecord) :
  f <> "All"%string ->
  In r (filter_category f records) <-> In r records /\ category r = f.
Proof.
  intros Hne. unfold filter_category.
  apply String.eqb_neq in Hne. rewrite Hne. cbn [negb].
  now rewrite filter_In, String.eqb_eq.
Qed.

End OptionFacts.

(** C10.  The animal pages of the table [pages] are called with the five
    lower-case category strings, and a record that such a page appends
    carries the string the page was called with.  The options of the
    dashboard's category select box are All followed by the distinct
    categories of the stored rows; every option other than All is the
    category of a stored row, which the filter then retains, and every
    stored category is an option. *)
Theorem persisted_categories_and_filter_options :
  (forall i cat,
      nth_error pages i = Some (AnimalPage cat) ->
      In cat ["farm animal"; "sea creature"; "bird"; "wild animal";
              "jungle animal"]%string)
  /\ (forall animal_data cat inp w,
         let w' := snd (animal_page animal_data cat inp w) in
         stored_rows w' = stored_rows w
         \/ exists r, stored_rows w' = stored_rows w ++ [r] /\ category r = cat)
  /\ (forall i cat animal_data inp w r,
         nth_error pages i = Some (AnimalPage cat) ->
         stored_rows (snd (animal_page animal_data cat inp w))
         = stored_rows w ++ [r] ->
         In (category r) ["farm animal"; "sea creature"; "bird"; "wild animal";
                          "jungle animal"]%string)
  /\ (forall records,
         category_options records = "All"%string :: unique (map category records)
         /\ NoDup (unique (map category records)))
  /\ (forall records o,
         In o (category_options records) -> o <> "All"%string ->
         exists r, In r records /\ category r = o
                   /\ In r (filter_category o records))
  /\ (forall records r,
         In r records -> In (category r) (category_options records)).
Proof.
  assert (Hpages : forall i cat,
             nth_error pages i = Some (AnimalPage cat) ->
             In cat ["farm animal"; "sea creature"; "bird"; "wild animal";
                     "jungle animal"]%string).
  { intros i cat H.
    do 7 (destruct i as [|i]; [cbn in H; try discriminate;
                               injection H as <-; cbn; tauto|]).
    destruct i; discriminate. }
  assert (Hpage : forall animal_data cat inp w,
             let w' := snd (animal_page animal_data cat inp w) in
             stored_rows w' = stored_rows w
             \/ exists r, stored_rows w' = stored_rows w ++ [r] /\ category r = cat);
    [|split; [exact Hpages|]; split; [exact Hpage|]; split; [|split; [|split]]].
  - intros animal_data cat inp w. cbv zeta.
    destruct (animal_page_cases animal_data cat inp w)
      as [(w' & Hrun & Hf & _)|(name & raw & w1 & Hrun & _ & _ & _ & _ & Hf & _)].
    + left. rewrite Hrun. cbn. unfold stored_rows. now rewrite Hf.
    + rewrite Hrun.
      assert (Hs : stored_rows w1 = stored_rows w)
        by (unfold stored_rows; now rewrite Hf).
      destruct (results_file w1) as [[|df]|] eqn:Hf1.
      * left. unfold record_attempt, bind, modify.
        rewrite save_to_csv_unparseable by exact Hf1.
        cbn [snd]. rewrite <- Hs. reflexivity.
      * right.
        destruct (record_attempt_rows name cat (Str.lower raw) (now1 inp) (now2 inp) w1)
          as (w' & df' & Hrec & Hf' & _ & Hrows); [rewrite Hf1; discriminate|].
        rewrite Hrec. cbn [snd]. eexists. split.
        -- unfold stored_rows at 1. rewrite Hf', Hrows, Hs. reflexivity.
        -- reflexivity.
      * right.
        destruct (record_attempt_rows name cat (Str.lower raw) (now1 inp) (now2 inp) w1)
          as (w' & df' & Hrec & Hf' & _ & Hrows); [rewrite Hf1; discriminate|].
        rewrite Hrec. cbn [snd]. eexists. split.
        -- unfold stored_rows at 1. rewrite Hf', Hrows, Hs. reflexivity.
        -- reflexivity.
  - intros i cat animal_data inp w r Hi Hrows.
    destruct (Hpage animal_data cat inp w) as [Hsame|(r' & Happ & Hcat)].
    + exfalso. rewrite Hsame in Hrows.
      apply (f_equal (@List.length AttemptRecord)) in Hrows.
      rewrite length_app in Hrows. cbn in Hrows. lia.
    + rewrite Happ in Hrows. apply app_inv_head in Hrows.
      injection Hrows as <-. rewrite Hcat. now apply (Hpages i).
  - intros records. split; [reflexivity | apply unique_NoDup].
  - intros records o Hin Hne. destruct Hin as [E|Hin]; [congruence|].
    apply unique_In, in_map_iff in Hin. destruct Hin as (r & Hr & Hin).
    exists r. split; [exact Hin|]. split; [exact Hr|].
    apply filter_category_In; auto.
  - intros records r Hin. right. apply unique_In. now apply in_map.
Qed.

(* ================================================================== *)
(** * Claims about the dashboard aggregation *)

(** When there are rows, the dashboard page shows the aggregation of the
    stored rows under the chosen period and the chosen option. *)
Lemma dashboard_page_shows (tf : time_filter) (choice : nat) (w : World) :
  results_file w <> Some Unparseable ->
  stored_rows w <> [] ->
  exists w',
    dashboard_page tf choice w
    = (Ok (Some (aggregate (stored_rows w) tf
                   (nth choice (category_options (stored_rows w)) "All"%string))),
       w').
Proof.
  intros Hok Hrows. destruct w as [[[|df]|] cid ta sc]; cbn in *; try congruence.
  unfold dashboard_page, bind, load_results, ensure_results_file, read_csv, df_empty.
  cbn. destruct (rows df) eqn:E; [congruence|]. eexists. reflexivity.
Qed.

(** C3.  For a record with a valid date, the Daily key is the date itself,
    the Weekly key is the Monday on or before the date and at most six days
    before it (the start of its Monday-to-Sunday week), and the Monthly key
    is day 1 of the month of the date.  For records dated 2024-01-01
    (correct), 2024-01-02 (incorrect) and 2024-01-08 (correct), the weekly
    result is the bucket of 2024-01-01 with sums 2, 1, 1 followed by the
    bucket of 2024-01-08 with sums 1, 1, 0. *)
Theorem bucket_key_derivation :
  (forall r,
      Calendar.valid (date r) ->
      let n := Calendar.days_from_civil (date r) in
      (time_period Daily r = n
       /\ Calendar.civil_from_days (time_period Daily r) = date r)
      /\ (Calendar.weekday (time_period Weekly r) = 0
          /\ time_period Weekly r <= n <= time_period Weekly r + 6
          /\ forall k, Calendar.weekday k = 0 -> k <= n <= k + 6 ->
                       k = time_period Weekly r)
      /\ (time_period Monthly r
          = Calendar.days_from_civil
              (Calendar.mkDate (Calendar.year (date r)) (Calendar.month (date r)) 1)
          /\ Calendar.civil_from_days (time_period Monthly r)
             = Calendar.mkDate (Calendar.year (date r)) (Calendar.month (date r)) 1))
  /\ Forall (fun r => Calendar.valid (date r)) Examples.three_attempts
  /\ Calendar.weekday (Calendar.days_from_civil (Calendar.mkDate 2024 1 1)) = 0
  /\ trend_data (aggregate Examples.three_attempts Weekly "All")
     = [mkBucket (Calendar.days_from_civil (Calendar.mkDate 2024 1 1)) 2 1 1;
        mkBucket (Calendar.days_from_civil (Calendar.mkDate 2024 1 8)) 1 1 0].
Proof.
  split; [|split; [|split]].
  - intros r Hv n. unfold time_period, period_of. fold n.
    split; [|split].
    + split; [reflexivity|]. now apply civil_from_days_from_civil.
    + pose proof (week_start_monday n) as (H0 & Hr).
      split; [exact H0|]. split; [exact Hr|].
      intros k Hk Hrange. now apply week_start_unique.
    + subst n. rewrite month_start_of_day_number by exact Hv.
      split; [reflexivity|].
      apply civil_from_days_from_civil. now apply first_of_month_valid.
  - repeat constructor; cbn; lia.
  - reflexivity.
  - vm_compute. reflexivity.
Qed.

(** C4.  Whatever the rows, the period and the filter, the three sums over
    the buckets are the three sums over the filtered rows, and so are the
    three totals shown beside the chart; each bucket carries the sums of
    the filtered rows of its period. *)
Theorem aggregation_totals_consistent (records : list AttemptRecord)
    (tf : time_filter) (f : string) :
  let df := filter_category f records in
  let d := aggregate records tf f in
  bucket_sum attempt_sum (trend_data d) = column_sum attempt df
  /\ bucket_sum correct_sum (trend_data d) = column_sum correct df
  /\ bucket_sum incorrect_sum (trend_data d) = column_sum incorrect df
  /\ total_attempts d = column_sum attempt df
  /\ total_correct d = column_sum correct df
  /\ total_incorrect d = column_sum incorrect df
  /\ Forall (fun b =>
       attempt_sum b
       = column_sum attempt (members (time_period tf) (period b) df)
       /\ correct_sum b
          = column_sum correct (members (time_period tf) (period b) df)
       /\ incorrect_sum b
          = column_sum incorrect (members (time_period tf) (period b) df))
     (trend_data d).
Proof.
  cbv zeta. unfold aggregate; cbn [trend_data total_attempts total_correct
                                    total_incorrect].
  rewrite groupby_sum_attempt, groupby_sum_correct, groupby_sum_incorrect.
  repeat split. apply groupby_sum_groups.
Qed.

(** C5.  With the option All every row is retained.  With any other
    option exactly the rows whose category is that very string are
    retained, and a row of another category, wherever it stands among the
    rows, changes neither a bucket nor a total.  The comparison is
    case-sensitive: the option Bird retains no row of category bird. *)
Theorem category_filter_exact :
  (forall records, filter_category "All" records = records)
  /\ (forall f records,
         f <> "All"%string ->
         filter_category f records
         = filter (fun r => String.eqb (category r) f) records)
  /\ (forall f records r,
         f <> "All"%string ->
         (In r (filter_category f records) <-> In r records /\ category r = f))
  /\ (forall f tf before r after,
         f <> "All"%string -> category r <> f ->
         aggregate (before ++ r :: after) tf f = aggregate (before ++ after) tf f)
  /\ filter_category "Bird" [Examples.bird_attempt] = []
  /\ filter_category "bird" [Examples.bird_attempt] = [Examples.bird_attempt].
Proof.
  split; [|split; [|split; [|split; [|split]]]]; try reflexivity.
  - intros f records Hne. unfold filter_category.
    apply String.eqb_neq in Hne. now rewrite Hne.
  - intros f records r Hne. now apply filter_category_In.
  - intros f tf before r after Hne Hcat. unfold aggregate, filter_category.
    apply String.eqb_neq in Hne. rewrite Hne. cbn [negb].
    rewrite !filter_app. cbn [filter].
    apply String.eqb_neq in Hcat. rewrite Hcat. reflexivity.
Qed.

(** C6.  Whatever the rows, the period and the filter, the periods of the
    buckets are strictly ascending, hence without repetition, and they are
    exactly the periods of the filtered rows. *)
Theorem buckets_strictly_ascending (records : list AttemptRecord)
    (tf : time_filter) (f : string) :
  let bs := trend_data (aggregate records tf f) in
  StronglySorted Z.lt (map period bs)
  /\ NoDup (map period bs)
  /\ (forall k,
         In k (map period bs)
         <-> exists r, In r (filter_category f records) /\ time_period tf r = k).
Proof.
  cbv zeta. unfold aggregate; cbn [trend_data].
  pose proof (groupby_sum_sorted (time_period tf) (filter_category f records)) as Hs.
  split; [exact Hs|]. split; [now apply ascending_NoDup|].
  intros k. fold (periods (groupby_sum (time_period tf) (filter_category f records))).
  rewrite groupby_sum_periods, in_map_iff.
  split; intros (r & H1 & H2); exists r; auto.
Qed.

(* ================================================================== *)
(** * The rest of the script: the home page, the navigation, whole runs *)

From Stdlib Require Import Permutation.

(* ------------------------------------------------------------------ *)
(** ** The home page and the script around the pages *)

(** The part of [st.session_state] that chooses the page. *)
Record Nav : Type := mkNav {
  page_index : nat;
  selected_category : option string
}.

(** The list [categories] of [home_page]. *)
Definition categories : list string :=
  ["Farm Animal"; "Sea Creature"; "Bird"; "Wild Animal"; "Jungle Animal"]%string.

(** The loop of [home_page] from position [i] on: the first button that
    reports a press sets the category and the page, and the loop stops. *)
Fixpoint home_buttons (i : nat) (cats : list string) (pressed : nat -> bool)
    (nav : Nav) : Nav :=
  match cats with
  | [] => nav
  | c :: cs =>
      if pressed i then mkNav (i + 1) (Some (Str.lower c))
      else home_buttons (S i) cs pressed nav
  end.

Definition home_page (pressed : nat -> bool) (nav : Nav) : Nav :=
  home_buttons 0 categories pressed nav.

(** The widget values and collaborator answers of one run of the script. *)
Record ScriptInputs : Type := mkScript {
  home_pressed : nat -> bool;   (* the category buttons of the home page *)
  page_inputs : PageInputs;     (* the widgets of an animal page *)
  dash_filter : time_filter;    (* the radio button of the dashboard *)
  dash_choice : nat;            (* the category select box of the dashboard *)
  go_dashboard : bool;          (* the button Go to Dashboard *)
  back_home : bool              (* the button Back to Home *)
}.








(** The strings the table [pages] passes to [animal_page]. *)
Definition page_categories : list string :=
  ["farm animal"; "sea creature"; "bird"; "wild animal"; "jungle animal"]%string.

(** A row as the recorder writes it for the child [cid]. *)
Definition recorder_row (cid : Z) (r : AttemptRecord) : Prop :=
  child_id r = cid
  /\ In (category r) page_categories
  /\ attempt r = 1
  /\ (correct r = 0 \/ correct r = 1)
  /\ incorrect r = 1 - correct r.



Module MoreExamples.

(** The user presses Try Saying Here and the recogniser answers LION. *)
Definition shout : PageInputs :=
  Examples.say (Recognized "LION") Examples.noon Examples.noon_later.

(** The recogniser answers with no word at all. *)
Definition silence : PageInputs :=
  Examples.say (Recognized "") Examples.noon Examples.noon_later.

(** A session whose results file holds the three attempts. *)
Definition stored : World :=
  mkWorld (Some (Csv (mkDF header Examples.three_attempts))) 1 [] [].

(** One run in which nothing is pressed but what is named. *)
Definition press (category_button : option nat) (page : PageInputs)
    (dashboard back : bool) : ScriptInputs :=
  mkScript (fun i => match category_button with
                     | Some j => Nat.eqb i j
                     | None => false
                     end)
           page Weekly 0 dashboard back.


End MoreExamples.


(* ================================================================== *)
(** * Properties of the script *)

Section ScriptFacts.

Variable animal_data : list Dataset.AnimalRecord.

Lemma home_buttons_cases (cats : list string) (pressed : nat -> bool) (nav : Nav) :
  forall i,
    (home_buttons i cats pressed nav = nav
     /\ forall j, (j < List.length cats)%nat -> pressed (i + j)%nat = false)
    \/ (exists j c,
           nth_error cats j = Some c
           /\ pressed (i + j)%nat = true
           /\ (forall j', (j' < j)%nat -> pressed (i + j')%nat = false)
           /\ home_buttons i cats pressed nav
              = mkNav (i + j + 1) (Some (Str.lower c))).
Proof.
  induction cats as [|c cs IH]; intros i; cbn [home_buttons].
  - left. split; [reflexivity|]. cbn. intros j Hj. lia.
  - destruct (pressed i) eqn:Hp.
    + right. exists 0%nat, c. rewrite !Nat.add_0_r.
      repeat split; auto. intros j' Hj'. lia.
    + destruct (IH (S i)) as [(Hsame & Hnone)|(j & c' & Hnth & Hpj & Hbefore & Hres)].
      * left. split; [exact Hsame|]. intros [|j] Hj.
        -- now rewrite Nat.add_0_r.
        -- replace (i + S j)%nat with (S i + j)%nat by lia.
           apply Hnone. cbn in Hj. lia.
      * right. exists (S j), c'. repeat split.
        -- exact Hnth.
        -- now replace (i + S j)%nat with (S i + j)%nat by lia.
        -- intros [|j'] Hj'; [now rewrite Nat.add_0_r|].
           replace (i + S j')%nat with (S i + j')%nat by lia.
           apply Hbefore. lia.
        -- rewrite Hres. f_equal. lia.
Qed.


(** X1.  On the home page the first category button that reports a press
    decides: the page index becomes its position plus one and the selected
    category the lower-cased label, and the table [pages] holds at that
    index the animal page of exactly that category.  With no press the
    navigation state is left as it was. *)
Theorem home_page_selects_matching_page (pressed : nat -> bool) (nav : Nav) :
  (home_page pressed nav = nav
   /\ forall j, (j < 5)%nat -> pressed j = false)
  \/ (exists j label,
         nth_error categories j = Some label
         /\ pressed j = true
         /\ (forall j', (j' < j)%nat -> pressed j' = false)
         /\ home_page pressed nav = mkNav (j + 1) (Some (Str.lower label))
         /\ nth_error pages (j + 1) = Some (AnimalPage (Str.lower label))).
Proof.
  unfold home_page.
  destruct (home_buttons_cases categories pressed nav 0)
    as [(Hsame & Hnone)|(j & c & Hnth & Hp & Hbefore & Hres)].
  - left. split; [exact Hsame|]. intros j Hj. apply (Hnone j). exact Hj.
  - right. exists j, c. cbn [Nat.add] in *.
    repeat split; auto.
    do 5 (destruct j as [|j]; [cbn in Hnth; injection Hnth as <-; reflexivity|]).
    destruct j; discriminate.
Qed.










(** What a run of the recorder does, by the state of the file. *)
Lemma record_attempt_result (name cat text : string)
    (t1 t2 : Calendar.datetime) (w : World) :
  let b := String.eqb text (Str.lower name) in
  let said :=
    if b then StSuccess ("Correct! You said '" ++ name ++ "'.")
    else StError ("Incorrect. You said '" ++ text ++ "'. Try again.") in
  let r := make_record (session_child_id w) name cat b t1 t2 in
  exists w',
    snd (record_attempt name cat text t1 t2 w) = w'
    /\ test_attempts w' = test_attempts w ++ [mkTest name text b]
    /\ screen w' = screen w ++ [said]
    /\ session_child_id w' = session_child_id w
    /\ match results_file w with
       | Some Unparseable =>
           fst (record_attempt name cat text t1 t2 w) = Raise ParserError
           /\ results_file w' = Some Unparseable
       | _ =>
           fst (record_attempt name cat text t1 t2 w) = Ok tt
           /\ stored_rows w' = stored_rows w ++ [r]
       end.
Proof.
  cbv zeta. destruct w as [[[|df]|] cid ta sc]; eexists; repeat split.
Qed.


(** The message that tells the user how the attempt went. *)
Definition feedback (name text : string) (is_correct : bool) : message :=
  if is_correct
  then StSuccess ("Correct! You said '" ++ name ++ "'.")
  else StError ("Incorrect. You said '" ++ text ++ "'. Try again.").

(** A run of a page on which a non-empty answer arrives, whatever the
    state of the file. *)
Lemma animal_page_attempt (cat raw : string) (inp : PageInputs) (w : World) :
  get_animal_details animal_data cat <> [] ->
  try_saying inp = true ->
  heard inp = Recognized raw ->
  Str.lower raw <> EmptyString ->
  exists name shown,
    let b := String.eqb (Str.lower raw) (Str.lower name) in
    let w' := snd (animal_page animal_data cat inp w) in
    In name (map Dataset.animal_name (get_animal_details animal_data cat))
    /\ test_attempts w' = test_attempts w ++ [mkTest name (Str.lower raw) b]
    /\ screen w' = shown ++ [feedback name (Str.lower raw) b]
    /\ match results_file w with
       | Some Unparseable =>
           fst (animal_page animal_data cat inp w) = Raise ParserError
           /\ results_file w' = Some Unparseable
       | _ =>
           fst (animal_page animal_data cat inp w) = Ok tt
           /\ stored_rows w'
              = stored_rows w
                ++ [make_record (session_child_id w) name cat b
                      (now1 inp) (now2 inp)]
       end.
Proof.
  intros Hdet Htry Hh Hlow.
  destruct (animal_page_cases animal_data cat inp w)
    as [(w' & _ & _ & _ & Hno)
       |(name & raw' & w1 & Hrun & Hname & _ & Hh' & _ & Hf & Hc & Hta)].
  - exfalso. destruct Hno as [E|[E|[E|[E|E]]]]; try congruence.
    rewrite Hh in E. injection E as ->. now apply Hlow.
  - rewrite Hh in Hh'. injection Hh' as <-.
    destruct (record_attempt_result name cat (Str.lower raw)
                (now1 inp) (now2 inp) w1) as (w' & Hw' & Hta' & Hsc & _ & Hfile).
    exists name, (screen w1). cbv zeta. rewrite Hrun, Hw'.
    split; [exact Hname|]. split; [now rewrite Hta', Hta|].
    split; [exact Hsc|].
    rewrite <- Hf.
    assert (Hs : stored_rows w1 = stored_rows w)
      by (unfold stored_rows; now rewrite Hf).
    rewrite <- Hs, <- Hc. exact Hfile.
Qed.

(** X2.  When a non-empty answer arrives on a page with animals and the
    file can be read, the run appends one row and one entry to the
    session's attempts for the same animal, the entry is marked correct
    exactly when the row is, and the last message shown is the success
    message exactly when the row is correct and the error message
    otherwise. *)
Theorem feedback_matches_stored_row (cat raw : string) (inp : PageInputs)
    (w : World) :
  get_animal_details animal_data cat <> [] ->
  try_saying inp = true ->
  heard inp = Recognized raw ->
  Str.lower raw <> EmptyString ->
  results_file w <> Some Unparseable ->
  exists name shown r w',
    animal_page animal_data cat inp w = (Ok tt, w')
    /\ stored_rows w' = stored_rows w ++ [r]
    /\ animal_name r = name
    /\ test_attempts w'
       = test_attempts w ++ [mkTest name (Str.lower raw) (correct r =? 1)]
    /\ screen w' = shown ++ [feedback name (Str.lower raw) (correct r =? 1)].
Proof.
  intros Hdet Htry Hh Hlow Hok.
  destruct (animal_page_attempt cat raw inp w Hdet Htry Hh Hlow)
    as (name & shown & Hname & Hta & Hsc & Hfile).
  set (b := String.eqb (Str.lower raw) (Str.lower name)) in *.
  assert (Hb : (correct (make_record (session_child_id w) name cat b
                           (now1 inp) (now2 inp)) =? 1) = b)
    by (destruct b; reflexivity).
  exists name, shown,
    (make_record (session_child_id w) name cat b (now1 inp) (now2 inp)),
    (snd (animal_page animal_data cat inp w)).
  rewrite Hb.
  assert (Hres : fst (animal_page animal_data cat inp w) = Ok tt
                 /\ stored_rows (snd (animal_page animal_data cat inp w))
                    = stored_rows w
                      ++ [make_record (session_child_id w) name cat b
                            (now1 inp) (now2 inp)]).
  { destruct (results_file w) as [[|df]|]; [congruence|exact Hfile|exact Hfile]. }
  destruct Hres as [Hfst Hrows].
  split; [|repeat split; auto].
  destruct (animal_page animal_data cat inp w) as [o w']; cbn in *. congruence.
Qed.

(** X3.  When the file cannot be parsed, the run of a page on a non-empty
    answer raises the parser's exception only after it has added the
    attempt to the session and shown the user the verdict: the file is
    still the unparseable one, nothing is stored, yet the session counts
    the attempt. *)
Theorem feedback_precedes_failing_save (cat raw : string) (inp : PageInputs)
    (w : World) :
  get_animal_details animal_data cat <> [] ->
  try_saying inp = true ->
  heard inp = Recognized raw ->
  Str.lower raw <> EmptyString ->
  results_file w = Some Unparseable ->
  exists name shown w',
    animal_page animal_data cat inp w = (Raise ParserError, w')
    /\ results_file w' = Some Unparseable
    /\ test_attempts w'
       = test_attempts w
         ++ [mkTest name (Str.lower raw)
               (String.eqb (Str.lower raw) (Str.lower name))]
    /\ screen w'
       = shown ++ [feedback name (Str.lower raw)
                     (String.eqb (Str.lower raw) (Str.lower name))].
Proof.
  intros Hdet Htry Hh Hlow Hbad.
  destruct (animal_page_attempt cat raw inp w Hdet Htry Hh Hlow)
    as (name & shown & Hname & Hta & Hsc & Hfile).
  rewrite Hbad in Hfile. destruct Hfile as [Hfst Hf'].
  exists name, shown, (snd (animal_page animal_data cat inp w)).
  split; [|repeat split; auto].
  destruct (animal_page animal_data cat inp w) as [o w']; cbn in *. congruence.
Qed.

(** X4.  When the recogniser succeeds with the empty string, the page
    treats it as no answer: it finishes normally, the file and the
    session's attempts are unchanged, and the last message is the
    invitation to speak, with no verdict and no error. *)
Theorem empty_answer_is_dropped (cat : string) (inp : PageInputs) (w : World) :
  heard inp = Recognized EmptyString ->
  exists w',
    animal_page animal_data cat inp w = (Ok tt, w')
    /\ results_file w' = results_file w
    /\ test_attempts w' = test_attempts w
    /\ (get_animal_details animal_data cat <> [] ->
        try_saying inp = true ->
        exists shown,
          screen w'
          = shown ++ [StInfo "Listening... Please say the animal's name."]).
Proof.
  intros Hh.
  destruct (animal_page_cases animal_data cat inp w)
    as [(w' & Hrun & Hf & Hta & _)|(name & raw & w1 & _ & _ & _ & Hh' & Hlow & _)].
  - exists w'. repeat split; auto.
    intros Hdet Htry. revert Hrun. unfold animal_page.
    destruct (get_animal_details animal_data cat) as [|first rest];
      [congruence|].
    rewrite Htry, Hh.
    destruct (image_loads inp), (play_sound inp), (tts inp); cbn;
      intros E; injection E as <-; cbn; eexists; reflexivity.
  - rewrite Hh in Hh'. injection Hh' as <-. now elim Hlow.
Qed.

(** X5.  When no row of the dataset has the page's category, compared in
    lower case, the page shows the one message that nothing was found and
    does nothing else, whatever is pressed and whatever the recogniser
    answers: the file and the session are unchanged. *)
Theorem page_without_animals (cat : string) (inp : PageInputs) (w : World) :
  (forall a, In a animal_data ->
             Str.lower (Dataset.animal_category a) <> Str.lower cat) ->
  animal_page animal_data cat inp w
  = (Ok tt,
     mkWorld (results_file w) (session_child_id w) (test_attempts w)
             (screen w ++ [StError ("No " ++ Str.lower cat
                                    ++ " found in the dataset.")])).
Proof.
  intros Hnone. unfold animal_page.
  assert (Hdet : get_animal_details animal_data cat = []).
  { unfold get_animal_details.
    induction animal_data as [|a rest IH]; [reflexivity|]. cbn.
    destruct (String.eqb_spec (Str.lower (Dataset.animal_category a))
                              (Str.lower cat)) as [E|_].
    - exfalso. apply (Hnone a); [now left | exact E].
    - apply IH. intros b Hb. apply Hnone. now right. }
  rewrite Hdet. reflexivity.
Qed.

(** The category is compared without regard to case. *)
Lemma get_animal_details_ignores_case (cat : string) :
  (forall a,
      In a (get_animal_details animal_data cat)
      <-> In a animal_data
          /\ Str.lower (Dataset.animal_category a) = Str.lower cat)
  /\ get_animal_details animal_data (Str.lower cat)
     = get_animal_details animal_data cat
  /\ (forall cat',
         Str.lower cat' = Str.lower cat ->
         get_animal_details animal_data cat'
         = get_animal_details animal_data cat).
Proof.
  split; [|split].
  - intros a. unfold get_animal_details. now rewrite filter_In, String.eqb_eq.
  - unfold get_animal_details. now rewrite lower_idempotent.
  - intros cat' E. unfold get_animal_details. now rewrite E.
Qed.


(** What a run of a page leaves behind, apart from the screen. *)
Definition page_effect (r : outcome unit * World)
  : outcome unit * option file * list test_attempt :=
  (fst r, results_file (snd r), test_attempts (snd r)).

Lemma animal_page_core (cat : string) (idx : nat) (img play : bool)
    (t : synthesis) (press : bool) (h : recognition)
    (t1 t2 : Calendar.datetime) (w : World) :
  page_effect (animal_page animal_data cat
                 (mkInputs idx img play t press h t1 t2) w)
  = page_effect (animal_page animal_data cat
                   (mkInputs idx true false (Audio EmptyString) press h t1 t2) w).
Proof.
  unfold animal_page, page_effect.
  destruct (get_animal_details animal_data cat) as [|first rest]; [reflexivity|].
  cbn [selected_index image_loads play_sound tts try_saying heard now1 now2].
  destruct press; [|destruct img, play, t; reflexivity].
  destruct h as [raw| |]; [|destruct img, play, t; reflexivity..].
  unfold bind, ret, modify, generate_audio, recognize_speech.
  destruct (Str.lower raw) as [|c s] eqn:Hlow;
    [destruct img, play, t; cbv beta iota; rewrite ?Hlow; reflexivity|].
  destruct w as [[[|df]|] cid ta sc];
    destruct img, play, t; cbv beta iota; rewrite ?Hlow; reflexivity.
Qed.

(** X6.  Whether the image loads, whether Play Sound is pressed and
    whether the synthesis fails has no effect on the outcome of the run, on
    the results file or on the session's attempts. *)
Theorem image_and_sound_do_not_affect_recording (cat : string) (idx : nat)
    (img img' play play' : bool) (t t' : synthesis) (press : bool)
    (h : recognition) (t1 t2 : Calendar.datetime) (w : World) :
  page_effect (animal_page animal_data cat
                 (mkInputs idx img play t press h t1 t2) w)
  = page_effect (animal_page animal_data cat
                   (mkInputs idx img' play' t' press h t1 t2) w).
Proof.
  rewrite (animal_page_core cat idx img play t).
  now rewrite (animal_page_core cat idx img' play' t').
Qed.

(** X7.  Two answers of the recogniser that differ only in the case of
    their letters lead to the same run of the page: the same outcome, file,
    session and messages. *)
Theorem answer_case_does_not_matter (cat raw raw' : string) (idx : nat)
    (img play : bool) (t : synthesis) (press : bool)
    (t1 t2 : Calendar.datetime) (w : World) :
  Str.lower raw = Str.lower raw' ->
  animal_page animal_data cat
    (mkInputs idx img play t press (Recognized raw) t1 t2) w
  = animal_page animal_data cat
      (mkInputs idx img play t press (Recognized raw') t1 t2) w.
Proof.
  intros E. unfold animal_page.
  destruct (get_animal_details animal_data cat) as [|first rest]; [reflexivity|].
  cbn [selected_index image_loads play_sound tts try_saying heard now1 now2].
  unfold recognize_speech. rewrite E. reflexivity.
Qed.

End ScriptFacts.

(* ================================================================== *)
(** * More about the dashboard *)

Section DashboardFacts.

(** What a run of the dashboard page does, by the state of the file. *)
Lemma dashboard_page_result (tf : time_filter) (choice : nat) (w : World) :
  match results_file w with
  | Some Unparseable => dashboard_page tf choice w = (Raise ParserError, w)
  | None =>
      dashboard_page tf choice w
      = (Ok None,
         mkWorld (Some (Csv (mkDF header []))) (session_child_id w)
                 (test_attempts w)
                 (screen w ++ [StWarning "No data available."]))
  | Some (Csv df) =>
      match rows df with
      | [] =>
          dashboard_page tf choice w
          = (Ok None,
             mkWorld (results_file w) (session_child_id w) (test_attempts w)
                     (screen w ++ [StWarning "No data available."]))
      | _ :: _ =>
          dashboard_page tf choice w
          = (Ok (Some (aggregate (rows df) tf
                         (nth choice (category_options (rows df)) "All"%string))),
             w)
      end
  end.
Proof.
  destruct w as [[[|[cols [|r rs]]]|] cid ta sc]; reflexivity.
Qed.

(** The option that the select box returns is one of its options. *)
Lemma selected_option_In (choice : nat) (records : list AttemptRecord) :
  In (nth choice (category_options records) "All"%string)
     (category_options records).
Proof.
  destruct (Nat.lt_ge_cases choice (List.length (category_options records))).
  - now apply nth_In.
  - rewrite nth_overflow by assumption. left. reflexivity.
Qed.

Lemma groupby_sum_nonempty (key : AttemptRecord -> Z) (r : AttemptRecord)
    (records : list AttemptRecord) :
  In r records -> groupby_sum key records <> [].
Proof.
  intros Hin Hnil.
  assert (H : In (key r) (periods (groupby_sum key records)))
    by (apply groupby_sum_periods; now apply in_map).
  rewrite Hnil in H. exact H.
Qed.

(** X8.  When the dashboard page computes a chart, the world is left as
    it was, the option in force is one of the offered options, it retains
    at least one stored row, and the chart has at least one bucket. *)
Theorem dashboard_chart_is_never_empty (tf : time_filter) (choice : nat)
    (w w' : World) (d : Dashboard) :
  dashboard_page tf choice w = (Ok (Some d), w') ->
  w' = w
  /\ trend_data d <> []
  /\ 1 <= Z.of_nat (List.length (trend_data d))
  /\ exists selected,
       In selected (category_options (stored_rows w))
       /\ d = aggregate (stored_rows w) tf selected
       /\ filter_category selected (stored_rows w) <> [].
Proof.
  intros Hrun. pose proof (dashboard_page_result tf choice w) as Hres.
  unfold stored_rows.
  destruct (results_file w) as [[|df]|]; try congruence.
  destruct (rows df) as [|r rs] eqn:Hrows; try congruence.
  rewrite Hres in Hrun.
  set (selected := nth choice (category_options (r :: rs)) "All"%string) in *.
  assert (Hd : d = aggregate (r :: rs) tf selected) by congruence.
  assert (Hw : w' = w) by congruence.
  clear Hrun Hres. subst d w'.
  assert (Hsel : In selected (category_options (r :: rs)))
    by apply selected_option_In.
  assert (Hne : exists r0, In r0 (filter_category selected (r :: rs))).
  { destruct (String.eqb_spec selected "All") as [E|E].
    - exists r. rewrite E. cbn. now left.
    - destruct Hsel as [Hall|Hsel]; [congruence|].
      apply unique_In, in_map_iff in Hsel. destruct Hsel as (r0 & Hr0 & Hin).
      exists r0. apply filter_category_In; auto. }
  destruct Hne as (r0 & Hr0).
  assert (Htd : trend_data (aggregate (r :: rs) tf selected) <> [])
    by (cbn [aggregate trend_data]; now apply (groupby_sum_nonempty _ r0)).
  split; [reflexivity|]. split; [exact Htd|]. split.
  - destruct (trend_data (aggregate (r :: rs) tf selected)) as [|b bs];
      [congruence|].
    change (List.length (b :: bs)) with (S (List.length bs)). lia.
  - exists selected. split; [exact Hsel|]. split; [reflexivity|].
    intros E. rewrite E in Hr0. exact Hr0.
Qed.


End DashboardFacts.

(* ================================================================== *)
(** * More about the grouping *)

Section MoreGroupingFacts.

Variable key : AttemptRecord -> Z.

(** Adding rows in either order gives the same buckets. *)
Lemma add_row_comm (k1 k2 : Z) (r1 r2 : AttemptRecord) (bs : list bucket) :
  add_row k1 r1 (add_row k2 r2 bs) = add_row k2 r2 (add_row k1 r1 bs).
Proof.
  induction bs as [|b bs IH];
    repeat (cbn [add_row period attempt_sum correct_sum incorrect_sum];
            match goal with
            | |- context [?a <? ?b] =>
                destruct (Z.ltb_spec a b); try (exfalso; lia)
            | |- context [?a =? ?b] =>
                destruct (Z.eqb_spec a b); try (exfalso; lia)
            end);
    cbn [add_row period attempt_sum correct_sum incorrect_sum];
    rewrite ?IH; try reflexivity;
    subst; f_equal; f_equal; lia.
Qed.

Lemma fold_add_row_perm (xs ys : list AttemptRecord) :
  Permutation xs ys ->
  forall acc,
    fold_left (fun a r => add_row (key r) r a) xs acc
    = fold_left (fun a r => add_row (key r) r a) ys acc.
Proof.
  induction 1 as [|x xs ys _ IH|x y xs|xs ys zs _ IH1 _ IH2]; intros acc; cbn.
  - reflexivity.
  - apply IH.
  - now rewrite add_row_comm.
  - now rewrite IH1.
Qed.

Lemma column_sum_perm (col : AttemptRecord -> Z) (xs ys : list AttemptRecord) :
  Permutation xs ys -> column_sum col xs = column_sum col ys.
Proof.
  induction 1; rewrite ?column_sum_cons; lia.
Qed.

Lemma filter_perm (p : AttemptRecord -> bool) (xs ys : list AttemptRecord) :
  Permutation xs ys -> Permutation (filter p xs) (filter p ys).
Proof.
  induction 1 as [|x xs ys _ IH|x y xs|xs ys zs _ IH1 _ IH2]; cbn.
  - constructor.
  - destruct (p x); [now constructor|exact IH].
  - destruct (p x), (p y); try reflexivity. constructor.
  - now transitivity (filter p ys).
Qed.

(** The sums of the buckets whose period passes a test are the sums of the
    rows whose key passes it. *)
Lemma add_row_sum_where (col : bucket -> Z) (rcol : AttemptRecord -> Z)
    (p : Z -> bool) (k : Z) (r : AttemptRecord) (bs : list bucket) :
  (forall q a c i,
      col (mkBucket q (a + attempt r) (c + correct r) (i + incorrect r))
      = col (mkBucket q a c i) + rcol r) ->
  col (mkBucket k (attempt r) (correct r) (incorrect r)) = rcol r ->
  bucket_sum col (filter (fun b => p (period b)) (add_row k r bs))
  = bucket_sum col (filter (fun b => p (period b)) bs)
    + (if p k then rcol r else 0).
Proof.
  intros Hadd Hnew. unfold bucket_sum.
  induction bs as [|b bs IH]; cbn.
  - destruct (p k); cbn; [rewrite Hnew|]; lia.
  - destruct (k <? period b).
    + cbn. destruct (p k), (p (period b)); cbn; rewrite ?Hnew; lia.
    + destruct (Z.eqb_spec k (period b)) as [E|E].
      * cbn. rewrite <- E. destruct (p k); cbn; [|lia].
        rewrite Hadd, E. destruct b; cbn. lia.
      * cbn. destruct (p (period b)); cbn; rewrite IH; lia.
Qed.

Lemma groupby_sum_where (col : bucket -> Z) (rcol : AttemptRecord -> Z)
    (p : Z -> bool) :
  (forall r q a c i,
      col (mkBucket q (a + attempt r) (c + correct r) (i + incorrect r))
      = col (mkBucket q a c i) + rcol r) ->
  (forall k r, col (mkBucket k (attempt r) (correct r) (incorrect r)) = rcol r) ->
  forall records,
    bucket_sum col (filter (fun b => p (period b)) (groupby_sum key records))
    = column_sum rcol (filter (fun r => p (key r)) records).
Proof.
  intros Hadd Hnew records. unfold groupby_sum.
  assert (H : forall acc,
             bucket_sum col (filter (fun b => p (period b))
               (fold_left (fun a r => add_row (key r) r a) records acc))
             = bucket_sum col (filter (fun b => p (period b)) acc)
               + column_sum rcol (filter (fun r => p (key r)) records)).
  { induction records as [|r rs IH]; intros acc; cbn [fold_left filter].
    - cbn. lia.
    - rewrite IH, (add_row_sum_where col rcol) by auto.
      destruct (p (key r)); rewrite ?column_sum_cons; lia. }
  rewrite H. cbn. lia.
Qed.

End MoreGroupingFacts.

Section AggregateFacts.

(** X10.  The buckets and the totals do not depend on the order of the
    rows in the file: two lists of rows that are permutations of each other
    aggregate to the same result. *)
Theorem aggregate_ignores_row_order (records records' : list AttemptRecord)
    (tf : time_filter) (f : string) :
  Permutation records records' ->
  aggregate records tf f = aggregate records' tf f.
Proof.
  intros Hperm. unfold aggregate.
  assert (Hf : Permutation (filter_category f records)
                           (filter_category f records')).
  { unfold filter_category. destruct (negb (String.eqb f "All"));
      [now apply filter_perm | exact Hperm]. }
  unfold groupby_sum.
  rewrite (fold_add_row_perm (time_period tf) _ _ Hf).
  now rewrite !(column_sum_perm _ _ _ Hf).
Qed.

(** X11.  Each bucket of a view is the roll-up of the daily buckets: its
    three sums are the sums over the daily buckets whose day falls in its
    period. *)
Theorem coarser_buckets_roll_up_daily (records : list AttemptRecord)
    (tf : time_filter) (f : string) :
  let daily := trend_data (aggregate records Daily f) in
  let same_period (k : Z) (d : bucket) := period_of tf (period d) =? k in
  Forall (fun b =>
            attempt_sum b
            = bucket_sum attempt_sum (filter (same_period (period b)) daily)
            /\ correct_sum b
               = bucket_sum correct_sum (filter (same_period (period b)) daily)
            /\ incorrect_sum b
               = bucket_sum incorrect_sum (filter (same_period (period b)) daily))
         (trend_data (aggregate records tf f)).
Proof.
  cbv zeta. unfold aggregate; cbn [trend_data].
  set (df := filter_category f records).
  pose proof (groupby_sum_groups (time_period tf) df) as Hg.
  eapply Forall_impl; [|exact Hg].
  intros b (Ha & Hc & Hi).
  rewrite (groupby_sum_where (time_period Daily) attempt_sum attempt
             (fun n => period_of tf n =? period b)) by reflexivity.
  rewrite (groupby_sum_where (time_period Daily) correct_sum correct
             (fun n => period_of tf n =? period b)) by reflexivity.
  rewrite (groupby_sum_where (time_period Daily) incorrect_sum incorrect
             (fun n => period_of tf n =? period b)) by reflexivity.
  repeat split; assumption.
Qed.

(** X12.  No view has more buckets than the daily view of the same rows
    under the same filter. *)
Theorem coarser_period_has_no_more_buckets (records : list AttemptRecord)
    (tf : time_filter) (f : string) :
  (List.length (trend_data (aggregate records tf f))
   <= List.length (trend_data (aggregate records Daily f)))%nat.
Proof.
  unfold aggregate; cbn [trend_data].
  set (df := filter_category f records).
  pose proof (ascending_NoDup _ (groupby_sum_sorted (time_period tf) df)) as Hnd.
  assert (Hincl : incl (periods (groupby_sum (time_period tf) df))
                       (map (period_of tf)
                            (periods (groupby_sum (time_period Daily) df)))).
  { intros k Hk. apply groupby_sum_periods, in_map_iff in Hk.
    destruct Hk as (r & Hr & Hin). apply in_map_iff.
    exists (time_period Daily r). split; [exact Hr|].
    apply groupby_sum_periods. now apply in_map. }
  pose proof (NoDup_incl_length Hnd Hincl) as Hlen.
  unfold periods in Hlen. rewrite !length_map in Hlen. exact Hlen.
Qed.

Lemma column_sum_recorder_rows (cid : Z) (rs : list AttemptRecord) :
  Forall (recorder_row cid) rs ->
  column_sum attempt rs = Z.of_nat (List.length rs)
  /\ column_sum correct rs + column_sum incorrect rs = column_sum attempt rs
  /\ 0 <= column_sum correct rs
  /\ 0 <= column_sum incorrect rs.
Proof.
  induction 1 as [|r rs Hr _ IH].
  - cbn. lia.
  - destruct Hr as (_ & _ & Ha & Hc & Hi).
    rewrite !column_sum_cons.
    change (List.length (r :: rs)) with (S (List.length rs)). lia.
Qed.

(** X13.  When every row is a row as the recorder writes it, every bucket
    has at least one attempt, its attempts are its correct plus its
    incorrect answers and count the rows of its period, and the total of
    attempts is the number of filtered rows and the sum of the other two
    totals. *)
Theorem buckets_of_recorder_rows (cid : Z) (records : list AttemptRecord)
    (tf : time_filter) (f : string) :
  Forall (recorder_row cid) records ->
  let d := aggregate records tf f in
  Forall (fun b =>
            attempt_sum b = correct_sum b + incorrect_sum b
            /\ 1 <= attempt_sum b
            /\ 0 <= correct_sum b /\ 0 <= incorrect_sum b
            /\ attempt_sum b
               = Z.of_nat (List.length
                   (members (time_period tf) (period b)
                            (filter_category f records))))
         (trend_data d)
  /\ total_attempts d = Z.of_nat (List.length (filter_category f records))
  /\ total_attempts d = total_correct d + total_incorrect d.
Proof.
  intros Hrows. cbv zeta. unfold aggregate;
    cbn [trend_data total_attempts total_correct total_incorrect].
  set (df := filter_category f records).
  assert (Hdf : Forall (recorder_row cid) df).
  { subst df. unfold filter_category.
    destruct (negb (String.eqb f "All")); [|exact Hrows].
    rewrite Forall_forall in *. intros r Hr. apply filter_In in Hr.
    now apply Hrows. }
  split.
  - pose proof (groupby_sum_groups (time_period tf) df) as Hg.
    rewrite Forall_forall in *. intros b Hb.
    destruct (Hg b Hb) as (Ha & Hc & Hi).
    assert (Hm : Forall (recorder_row cid)
                        (members (time_period tf) (period b) df)).
    { rewrite Forall_forall. intros r Hr. apply filter_In in Hr.
      now apply Hdf. }
    destruct (column_sum_recorder_rows cid _ Hm) as (H1 & H2 & H3 & H4).
    assert (Hk : In (period b) (map (time_period tf) df)).
    { apply groupby_sum_periods. unfold periods. now apply in_map. }
    apply in_map_iff in Hk. destruct Hk as (r & Hr & Hin).
    assert (Hrm : In r (members (time_period tf) (period b) df)).
    { apply filter_In. split; [exact Hin|]. now apply Z.eqb_eq. }
    destruct (members (time_period tf) (period b) df) as [|m ms] eqn:E;
      [contradiction|].
    change (List.length (m :: ms)) with (S (List.length ms)) in *. lia.
  - destruct (column_sum_recorder_rows cid df Hdf) as (H1 & H2 & _). lia.
Qed.

(** X14.  For a valid date the period start is never after the date: the
    week starts at most 6 days before it, and the month starts exactly the
    day of the month minus one before it, hence at most 30 days. *)
Theorem period_start_not_after_date (r : AttemptRecord) :
  Calendar.valid (date r) ->
  time_period Weekly r <= time_period Daily r <= time_period Weekly r + 6
  /\ time_period Daily r
     = time_period Monthly r + (Calendar.day (date r) - 1)
  /\ time_period Monthly r <= time_period Daily r <= time_period Monthly r + 30.
Proof.
  intros Hv.
  assert (Hm : time_period Daily r
               = time_period Monthly r + (Calendar.day (date r) - 1)).
  { unfold time_period, period_of.
    rewrite month_start_of_day_number by exact Hv.
    unfold Calendar.days_from_civil; cbn [Calendar.year Calendar.month Calendar.day].
    lia. }
  split; [|split; [exact Hm|]].
  - unfold time_period, period_of.
    apply (week_start_monday (Calendar.days_from_civil (date r))).
  - destruct Hv as [Hmonth Hday].
    pose proof (days_in_month_cases (Calendar.year (date r))
                  (Calendar.month (date r)) Hmonth). lia.
Qed.

End AggregateFacts.

Section HeaderFacts.

Lemma mem_In (k : string) (ks : list string) : Str.mem k ks = true <-> In k ks.
Proof.
  unfold Str.mem. rewrite existsb_exists. split.
  - intros (x & Hin & E). apply String.eqb_eq in E. now subst.
  - intros Hin. exists k. split; [exact Hin | apply String.eqb_refl].
Qed.

Lemma filter_none (p : string -> bool) (l : list string) :
  (forall x, In x l -> p x = false) -> filter p l = [].
Proof.
  induction l as [|x l IH]; intros H; [reflexivity|]. cbn.
  rewrite (H x) by now left. apply IH. intros y Hy. apply H. now right.
Qed.

(** X15.  Whatever the header of the table read, after one save the
    header is the old header followed by the record keys it lacked, it
    holds all eight record keys, and a further save leaves it as it is
    while the rows grow by one each time. *)
Theorem saved_header_is_stable (df : DataFrame) (r r' : AttemptRecord) :
  let df1 := concat_record df r in
  (exists added, columns df1 = columns df ++ added
                 /\ forall k, In k added <-> In k record_keys /\ ~ In k (columns df))
  /\ incl record_keys (columns df1)
  /\ columns (concat_record df1 r') = columns df1
  /\ rows (concat_record df1 r') = rows df ++ [r; r'].
Proof.
  cbv zeta.
  assert (Hall : forall k, In k record_keys -> In k (columns (concat_record df r))).
  { intros k Hk. unfold concat_record; cbn [columns]. apply in_app_iff.
    destruct (Str.mem k (columns df)) eqn:E.
    - left. now apply mem_In.
    - right. apply filter_In. split; [exact Hk|]. now rewrite E. }
  split; [|split; [exact Hall|split]].
  - eexists. split; [reflexivity|]. intros k.
    rewrite filter_In, negb_true_iff, <- not_true_iff_false, mem_In. tauto.
  - unfold concat_record at 1; cbn [columns].
    replace (filter (fun k => negb (Str.mem k (columns (concat_record df r))))
                    record_keys) with (@nil string).
    + now rewrite app_nil_r.
    + symmetry. apply filter_none. intros k Hk. apply negb_false_iff.
      apply mem_In. now apply Hall.
  - cbn [concat_record rows]. now rewrite <- app_assoc.
Qed.

End HeaderFacts.

Section RunFacts.

Variable animal_data : list Dataset.AnimalRecord.







End RunFacts.

(* ================================================================== *)
(** * Instances *)

Lemma feedback_matches_stored_row_witness :
  exists name shown r w',
    animal_page Examples.animal_data "wild animal" MoreExamples.shout
                Examples.fresh = (Ok tt, w')
    /\ stored_rows w' = stored_rows Examples.fresh ++ [r]
    /\ animal_name r = name
    /\ test_attempts w'
       = test_attempts Examples.fresh
         ++ [mkTest name (Str.lower "LION") (correct r =? 1)]
    /\ screen w' = shown ++ [feedback name (Str.lower "LION") (correct r =? 1)].
Proof.
  apply (feedback_matches_stored_row Examples.animal_data "wild animal" "LION"
           MoreExamples.shout Examples.fresh);
    try reflexivity; discriminate.
Defined.

Lemma feedback_precedes_failing_save_witness :
  exists name shown w',
    animal_page Examples.animal_data "wild animal" MoreExamples.shout
                Examples.corrupt = (Raise ParserError, w')
    /\ results_file w' = Some Unparseable
    /\ test_attempts w'
       = test_attempts Examples.corrupt
         ++ [mkTest name (Str.lower "LION")
               (String.eqb (Str.lower "LION") (Str.lower name))]
    /\ screen w'
       = shown ++ [feedback name (Str.lower "LION")
                     (String.eqb (Str.lower "LION") (Str.lower name))].
Proof.
  apply (feedback_precedes_failing_save Examples.animal_data "wild animal"
           "LION" MoreExamples.shout Examples.corrupt);
    try reflexivity; discriminate.
Defined.

Lemma empty_answer_is_dropped_witness :
  exists w',
    animal_page Examples.animal_data "wild animal" MoreExamples.silence
                Examples.fresh = (Ok tt, w')
    /\ results_file w' = results_file Examples.fresh
    /\ test_attempts w' = test_attempts Examples.fresh
    /\ (get_animal_details Examples.animal_data "wild animal" <> [] ->
        try_saying MoreExamples.silence = true ->
        exists shown,
          screen w'
          = shown ++ [StInfo "Listening... Please say the animal's name."]).
Proof.
  apply (empty_answer_is_dropped Examples.animal_data "wild animal"
           MoreExamples.silence Examples.fresh).
  reflexivity.
Defined.

Lemma page_without_animals_witness :
  animal_page Examples.animal_data "sea creature" MoreExamples.shout
              Examples.fresh
  = (Ok tt,
     mkWorld (results_file Examples.fresh) (session_child_id Examples.fresh)
             (test_attempts Examples.fresh)
             (screen Examples.fresh
              ++ [StError ("No " ++ Str.lower "sea creature"
                           ++ " found in the dataset.")])).
Proof.
  apply (page_without_animals Examples.animal_data "sea creature"
           MoreExamples.shout Examples.fresh).
  intros a [<-|[<-|[]]]; discriminate.
Defined.

Lemma answer_case_does_not_matter_witness :
  animal_page Examples.animal_data "wild animal"
    (mkInputs 0 true false (Audio "") true (Recognized "LION")
              Examples.noon Examples.noon_later) Examples.fresh
  = animal_page Examples.animal_data "wild animal"
      (mkInputs 0 true false (Audio "") true (Recognized "lion")
                Examples.noon Examples.noon_later) Examples.fresh.
Proof.
  apply (answer_case_does_not_matter Examples.animal_data "wild animal"
           "LION" "lion").
  reflexivity.
Defined.

Lemma dashboard_chart_is_never_empty_witness :
  MoreExamples.stored = MoreExamples.stored
  /\ trend_data (aggregate Examples.three_attempts Weekly "wild animal") <> []
  /\ 1 <= Z.of_nat (List.length
             (trend_data (aggregate Examples.three_attempts Weekly "wild animal")))
  /\ exists selected,
       In selected (category_options (stored_rows MoreExamples.stored))
       /\ aggregate Examples.three_attempts Weekly "wild animal"
          = aggregate (stored_rows MoreExamples.stored) Weekly selected
       /\ filter_category selected (stored_rows MoreExamples.stored) <> [].
Proof.
  apply (dashboard_chart_is_never_empty Weekly 1 MoreExamples.stored
           MoreExamples.stored
           (aggregate Examples.three_attempts Weekly "wild animal")).
  reflexivity.
Defined.

Lemma aggregate_ignores_row_order_witness :
  aggregate [Examples.bird_attempt; Examples.attempt_on 2024 1 2 false]
            Monthly "All"
  = aggregate [Examples.attempt_on 2024 1 2 false; Examples.bird_attempt]
              Monthly "All".
Proof.
  apply (aggregate_ignores_row_order
           [Examples.bird_attempt; Examples.attempt_on 2024 1 2 false]
           [Examples.attempt_on 2024 1 2 false; Examples.bird_attempt]).
  apply perm_swap.
Defined.

Lemma buckets_of_recorder_rows_witness :
  let d := aggregate Examples.three_attempts Weekly "All" in
  Forall (fun b =>
            attempt_sum b = correct_sum b + incorrect_sum b
            /\ 1 <= attempt_sum b
            /\ 0 <= correct_sum b /\ 0 <= incorrect_sum b
            /\ attempt_sum b
               = Z.of_nat (List.length
                   (members (time_period Weekly) (period b)
                            (filter_category "All" Examples.three_attempts))))
         (trend_data d)
  /\ total_attempts d
     = Z.of_nat (List.length (filter_category "All" Examples.three_attempts))
  /\ total_attempts d = total_correct d + total_incorrect d.
Proof.
  apply (buckets_of_recorder_rows 1 Examples.three_attempts Weekly "All").
  repeat (apply Forall_cons || apply Forall_nil);
    unfold recorder_row; cbn; intuition.
Defined.

Lemma period_start_not_after_date_witness :
  let r := Examples.attempt_on 2024 1 8 true in
  time_period Weekly r <= time_period Daily r <= time_period Weekly r + 6
  /\ time_period Daily r
     = time_period Monthly r + (Calendar.day (date r) - 1)
  /\ time_period Monthly r <= time_period Daily r <= time_period Monthly r + 30.
Proof.
  apply (period_start_not_after_date (Examples.attempt_on 2024 1 8 true)).
  unfold Calendar.valid. cbn. lia.
Defined.



